(** * LuckyFive round engine: a shallow embedding and its checked properties

    The repository holds three renditions of the same wagering engine:

    - [TimerEngine]: ./game/luckyFive.js, the setTimeout-driven engine
      (createRound, scheduleRoundTimers, emitRoundResultAndProcess and the
      socket handlers place_bet / submit_final_bets);
    - [IntervalEngine]: the setInterval-driven rendition of luckyFive.js;
    - [Monolith]: server.js with its GameRound class and the
      update_pending_bet / submit_final_bets handlers.

    Modelling conventions.  JavaScript numbers that carry money, identifiers
    and instants are integers ([Z]); a JS [Map] and a plain JS object are
    association lists in insertion order (iteration order is observable);
    the MySQL tables are an in-memory store whose statements always succeed;
    every handler runs to completion on the state it finds (the single
    JavaScript thread, with await points not interleaved); [Date.now()] and
    [Math.random()] are inputs of the step that reads them. *)

From Stdlib Require Import ZArith Lia List.
From Stdlib Require Import DecimalString.
From stdpp Require Import base option list gmap strings.

Open Scope string_scope.
Open Scope list_scope.
Open Scope Z_scope.

(** ** JavaScript values used by the engine *)

(** A JS [Map] keyed by strings (socket ids), and equally the own properties
    of a plain object: insertion-ordered, [set] on a present key keeps its
    position. *)
Abbreviation JsMap V := (list (string * V)).

Fixpoint jm_get {V} (m : JsMap V) (k : string) : option V :=
  match m with
  | [] => None
  | (k', v) :: r => if decide (k' = k) then Some v else jm_get r k
  end.

Fixpoint jm_set {V} (m : JsMap V) (k : string) (v : V) : JsMap V :=
  match m with
  | [] => [(k, v)]
  | (k', v') :: r =>
      if decide (k' = k) then (k, v) :: r else (k', v') :: jm_set r k v
  end.

Fixpoint jm_delete {V} (m : JsMap V) (k : string) : JsMap V :=
  match m with
  | [] => []
  | (k', v) :: r =>
      if decide (k' = k) then r else (k', v) :: jm_delete r k
  end.

Definition jm_has {V} (m : JsMap V) (k : string) : bool :=
  match jm_get m k with Some _ => true | None => false end.

(** A plain object whose property values are numbers. *)
Abbreviation JsObj := (list (string * Z)).

(** The property names a plain object inherits from Object.prototype.
    Reading one of them on an object with no own property of that name
    yields the inherited value, not [undefined], and writing [__proto__]
    sets the prototype instead of a property: the association list does not
    describe these keys. *)
Definition inheritedKeys : list string :=
  ["constructor"; "__defineGetter__"; "__defineSetter__"; "hasOwnProperty";
   "__lookupGetter__"; "__lookupSetter__"; "isPrototypeOf";
   "propertyIsEnumerable"; "toString"; "valueOf"; "__proto__";
   "toLocaleString"].

(** A key the association list is faithful on: an own data property
    wherever it is written, enumerated in insertion order.  It is not
    inherited and does not start with a digit (array indices are enumerated
    first). *)
Definition plainKey (k : string) : bool :=
  negb (bool_decide (k ∈ inheritedKeys))
  && match k with
     | String c _ =>
         negb ((48 <=? Ascii.nat_of_ascii c)%nat
               && (Ascii.nat_of_ascii c <=? 57)%nat)
     | EmptyString => true
     end.

(** Number.isSafeInteger: on these the sum of two doubles is the sum of the
    integers whenever the result is one of them too. *)
Definition isSafeInteger (z : Z) : bool :=
  (- (2 ^ 53 - 1) <=? z) && (z <=? 2 ^ 53 - 1).

(** [x || 0] for a possibly missing number: [undefined] and [0] both give 0. *)
Definition or_zero (x : option Z) : Z :=
  match x with Some v => v | None => 0 end.

(** [x || y] for a possibly missing number [x]. *)
Definition or_else (x : option Z) (y : Z) : Z :=
  match x with
  | Some v => if v =? 0 then y else v
  | None => y
  end.

(** [Object.values(o).reduce((s, v) => s + Number(v || 0), 0)] *)
Definition sum_values (o : JsObj) : Z :=
  fold_left (fun s kv => s + or_zero (Some (snd kv))) o 0.

(** The template literal [`line${n}`]. *)
Definition lineKey (n : Z) : string :=
  String.append "line" (NilZero.string_of_int (Z.to_int n)).

(** ** Math.floor(Math.random() * 5) + 1

    [Math.random()] yields a double in [0,1): a value [m * 2^-q] with a
    significand [0 <= m < 2^53] and [53 <= q].  The product by 5 is rounded
    to 53 significant bits (ties to even) before [Math.floor]. *)

Definition round53 (n : Z) : Z :=
  let s := Z.log2 n - 52 in
  if s <=? 0 then n
  else
    let q := Z.shiftr n s in
    let r := n - Z.shiftl q s in
    let half := Z.shiftl 1 (s - 1) in
    if r <? half then Z.shiftl q s
    else if half <? r then Z.shiftl (q + 1) s
    else if Z.even q then Z.shiftl q s else Z.shiftl (q + 1) s.

Definition draw_line (m q : Z) : Z :=
  Z.shiftr (round53 (5 * m)) q + 1.

(** ** The persistent store (MySQL tables users, transactions, player_bets,
    game_rounds) *)

Record UserRow := mkUserRow { u_username : string; u_balance : Z }.

Inductive TxType := TxBet | TxWin.

(** The description column, kept as the values interpolated into it. *)
Inductive Description :=
| DescBet (line : string) (roundStart : Z)
| DescBetOn (line : string)
| DescWin (line : Z) (persisted : option Z)
| DescWon (line : option Z).

Record Transaction := mkTransaction {
  tx_user : Z; tx_amount : Z; tx_type : TxType; tx_desc : Description }.

Record PlayerBet := mkPlayerBet {
  pbet_round : option Z; pbet_user : Z; pbet_line : string; pbet_amount : Z }.

Record GameRoundRow := mkGameRoundRow {
  gr_id : Z; gr_start : Z; gr_end : option Z; gr_winning : option Z }.

Record DB := mkDB {
  users : gmap Z UserRow;
  transactions : list Transaction;
  player_bets : list PlayerBet;
  game_rounds : list GameRoundRow }.

(** SELECT balance FROM users WHERE id = ? *)
Definition select_balance (d : DB) (uid : Z) : option Z :=
  u_balance <$> users d !! uid.

(** UPDATE users SET balance = balance + ? WHERE id = ? *)
Definition update_balance (d : DB) (uid : Z) (delta : Z) : DB :=
  mkDB (alter (fun u => mkUserRow (u_username u) (u_balance u + delta)) uid (users d))
       (transactions d) (player_bets d) (game_rounds d).

(** INSERT INTO transactions (user_id, amount, type, description) *)
Definition insert_transaction (d : DB) (t : Transaction) : DB :=
  mkDB (users d) (transactions d ++ [t]) (player_bets d) (game_rounds d).

(** INSERT INTO player_bets (round_id, user_id, line, amount) *)
Definition insert_player_bet (d : DB) (b : PlayerBet) : DB :=
  mkDB (users d) (transactions d) (player_bets d ++ [b]) (game_rounds d).

(** INSERT INTO game_rounds: the auto-increment key is the row count + 1. *)
Definition insert_game_round (d : DB) (start : Z) (fin win : option Z) : DB * Z :=
  let id := Z.of_nat (length (game_rounds d)) + 1 in
  (mkDB (users d) (transactions d) (player_bets d)
        (game_rounds d ++ [mkGameRoundRow id start fin win]), id).

(** UPDATE game_rounds SET end_time = ?, winning_line = ? WHERE id = ? *)
Definition update_game_round (d : DB) (id : Z) (fin win : option Z) : DB :=
  mkDB (users d) (transactions d) (player_bets d)
       (map (fun g => if gr_id g =? id
                      then mkGameRoundRow (gr_id g) (gr_start g) fin win
                      else g) (game_rounds d)).

(** Sessions: socketId -> { userId, username, balance }. *)
Record Session := mkSession {
  s_userId : Z; s_username : string; s_balance : Z }.

Inductive Token := NoToken | BadToken | GoodToken (userId : Z).

Inductive Target := Broadcast | ToSocket (sid : string).

Inductive Phase := OPEN | FROZEN | RESULTED.

(** ** ./game/luckyFive.js, the setTimeout-driven engine *)

Module TimerEngine.

Definition FREEZE_OFFSET_MS : Z := 25000.
Definition RESULT_OFFSET_MS : Z := 30000.
Definition ROUND_DURATION_MS : Z := 40000.
Definition WIN_MULTIPLIER : Z := 5.

(** finalBets value: { userId, bets, totalAmount } *)
Record Snapshot := mkSnapshot {
  snap_userId : Z; snap_bets : JsObj; snap_totalAmount : Z }.

Record Round := mkRound {
  startTime : Z;
  freezeTime : Z;
  resultTime : Z;
  endTime : Z;
  persistedRoundId : option Z;
  winningLine : option Z;
  bets : JsMap JsObj;
  finalBets : JsMap Snapshot;
  timers : JsMap nat }.

(** createRound(startTime), with [Date.now()] as [now] *)
Definition createRound (start : Z) (now : Z) : Round :=
  let s := or_else (Some start) now in
  mkRound s (s + FREEZE_OFFSET_MS) (s + RESULT_OFFSET_MS)
          (s + ROUND_DURATION_MS) None None [] [] [].

Inductive Msg :=
| start_round (roundId serverTime freezeIn resultIn : Z)
| freeze_bets (roundId serverTime : Z)
| round_result (roundId : Z) (winning : option Z) (serverTime : Z)
| round_result_to (roundId : Z) (winning : option Z)
                  (winAmount newBalance serverTime : Z)
| auth_error (error : string)
| authenticated (userId balance : Z)
| current_state (roundId serverTime freezeIn resultIn : Z)
                (isBettingOpen : bool)
| place_bet_ack (success : bool) (bets : JsObj)
| bet_error (message : string)
| bet_accepted (newBalance : Z).

Inductive TimerKind := KStart | KFreeze | KResult.

#[global] Instance TimerKind_eq_dec : EqDecision TimerKind.
Proof. solve_decision. Defined.

(** A pending setTimeout: its id, the instant it is due, and the closure
    (which callback, on which round object). *)
Record Timer := mkTimer {
  t_id : nat; t_due : Z; t_kind : TimerKind; t_round : nat }.

(** One callback that ran: a history variable of the scheduler. *)
Record Fired := mkFired {
  f_kind : TimerKind;
  f_round : nat;
  f_current : nat;
  f_phase : Phase;
  f_draw : option Z }.

(** The closure of module.exports: round objects live in [heap] and are
    referred to by index, so the timers' closures and [currentRound] alias
    the same object. *)
Record State := mkState {
  heap : list Round;
  currentRound : nat;
  userSessions : JsMap Session;
  db : DB;
  timerQueue : list Timer;
  nextTimerId : nat;
  outbox : list (Target * Msg);
  fired : list Fired }.

Definition set_heap (st : State) (h : list Round) : State :=
  mkState h (currentRound st) (userSessions st) (db st) (timerQueue st)
          (nextTimerId st) (outbox st) (fired st).

Definition set_sessions (st : State) (ss : JsMap Session) : State :=
  mkState (heap st) (currentRound st) ss (db st) (timerQueue st)
          (nextTimerId st) (outbox st) (fired st).

Definition set_db (st : State) (d : DB) : State :=
  mkState (heap st) (currentRound st) (userSessions st) d (timerQueue st)
          (nextTimerId st) (outbox st) (fired st).

Definition set_queue (st : State) (q : list Timer) : State :=
  mkState (heap st) (currentRound st) (userSessions st) (db st) q
          (nextTimerId st) (outbox st) (fired st).

Definition emit (st : State) (to : Target) (m : Msg) : State :=
  mkState (heap st) (currentRound st) (userSessions st) (db st)
          (timerQueue st) (nextTimerId st) (outbox st ++ [(to, m)]) (fired st).

Definition record_fired (st : State) (f : Fired) : State :=
  mkState (heap st) (currentRound st) (userSessions st) (db st)
          (timerQueue st) (nextTimerId st) (outbox st) (fired st ++ [f]).

Definition with_persisted (r : Round) (p : option Z) : Round :=
  mkRound (startTime r) (freezeTime r) (resultTime r) (endTime r) p
          (winningLine r) (bets r) (finalBets r) (timers r).

Definition with_winningLine (r : Round) (w : option Z) : Round :=
  mkRound (startTime r) (freezeTime r) (resultTime r) (endTime r)
          (persistedRoundId r) w (bets r) (finalBets r) (timers r).

Definition with_bets (r : Round) (b : JsMap JsObj) : Round :=
  mkRound (startTime r) (freezeTime r) (resultTime r) (endTime r)
          (persistedRoundId r) (winningLine r) b (finalBets r) (timers r).

Definition with_finalBets (r : Round) (f : JsMap Snapshot) : Round :=
  mkRound (startTime r) (freezeTime r) (resultTime r) (endTime r)
          (persistedRoundId r) (winningLine r) (bets r) f (timers r).

Definition with_timers (r : Round) (t : JsMap nat) : Round :=
  mkRound (startTime r) (freezeTime r) (resultTime r) (endTime r)
          (persistedRoundId r) (winningLine r) (bets r) (finalBets r) t.

(** The timer list of the event loop, in firing order: by due instant, and
    by creation among equal instants. *)
Fixpoint insert_timer (t : Timer) (q : list Timer) : list Timer :=
  match q with
  | [] => [t]
  | h :: r => if t_due t <? t_due h then t :: q else h :: insert_timer t r
  end.

(** round.timers.<name> = setTimeout(callback, delay); a delay below 1 ms
    counts as 1 ms. *)
Definition setTimeout (st : State) (name : string) (k : TimerKind)
           (r : nat) (now delay : Z) : State :=
  let id := nextTimerId st in
  let t := mkTimer id (now + Z.max 1 delay) k r in
  mkState (alter (fun rd => with_timers rd (jm_set (timers rd) name id)) r (heap st))
          (currentRound st) (userSessions st) (db st)
          (insert_timer t (timerQueue st)) (S id) (outbox st) (fired st).

Definition scheduleRoundTimers (st : State) (r : nat) (now : Z) : State :=
  match heap st !! r with
  | None => st
  | Some rd =>
      let startDelay := Z.max 0 (startTime rd - now) in
      let st1 := setTimeout st "start" KStart r now startDelay in
      let freezeDelay := Z.max 0 (freezeTime rd - now) in
      let st2 := setTimeout st1 "freeze" KFreeze r now freezeDelay in
      let resultDelay := Z.max 0 (resultTime rd - now) in
      setTimeout st2 "result" KResult r now resultDelay
  end.

Definition clearTimeout (q : list Timer) (id : nat) : list Timer :=
  filter (fun t => t_id t ≠ id) q.

Definition clearRoundTimers (st : State) (r : nat) : State :=
  match heap st !! r with
  | None => st
  | Some rd =>
      let q := fold_left (fun q kv => clearTimeout q (snd kv)) (timers rd)
                         (timerQueue st) in
      set_queue (set_heap st (alter (fun rd => with_timers rd []) r (heap st))) q
  end.

(** Where a round stands: its freeze timer still pending, its result timer
    still pending, or both have run. *)
Definition pending (st : State) (k : TimerKind) (r : nat) : bool :=
  existsb (fun t => bool_decide (t_kind t = k) && (t_round t =? r)%nat)
          (timerQueue st).

Definition phase_of (st : State) (r : nat) : Phase :=
  if pending st KFreeze r then OPEN
  else if pending st KResult r then FROZEN
  else RESULTED.

(** persistRoundStart(round) *)
Definition persistRoundStart (st : State) (r : nat) : State :=
  match heap st !! r with
  | None => st
  | Some rd =>
      let '(d, id) := insert_game_round (db st) (startTime rd) None None in
      set_db (set_heap st (alter (fun rd => with_persisted rd (Some id)) r (heap st))) d
  end.

(** persistRoundResult(round) *)
Definition persistRoundResult (st : State) (r : nat) : State :=
  match heap st !! r with
  | None => st
  | Some rd =>
      let fallback :=
        let '(d, id') := insert_game_round (db st) (startTime rd)
                           (Some (endTime rd)) (winningLine rd) in
        set_db (set_heap st (alter (fun rd => with_persisted rd (Some id')) r (heap st))) d in
      match persistedRoundId rd with
      | Some id =>
          if id =? 0 then fallback
          else set_db st (update_game_round (db st) id (Some (endTime rd))
                                            (winningLine rd))
      | None => fallback
      end
  end.

(** emitStartRound(round) *)
Definition emitStartRound (st : State) (r : nat) (now : Z) : State :=
  match heap st !! r with
  | None => st
  | Some rd =>
      emit (persistRoundStart st r) Broadcast
           (start_round (startTime rd) now
                        (Z.max 0 (freezeTime rd - now))
                        (Z.max 0 (resultTime rd - now)))
  end.

(** emitFreezeBets(round) *)
Definition emitFreezeBets (st : State) (r : nat) (now : Z) : State :=
  match heap st !! r with
  | None => st
  | Some rd => emit st Broadcast (freeze_bets (startTime rd) now)
  end.

(** The inner loop over userSessions.entries(): the first session of the
    user gets the targeted message and its cached balance refreshed, then
    [break]. [fresh] is the SELECT's balance, if the row exists. *)
Fixpoint notifyPayee (ss : JsMap Session) (userId : Z) (fresh : option Z)
         (mk : Z -> Msg) : JsMap Session * list (Target * Msg) :=
  match ss with
  | [] => ([], [])
  | (sId, session) :: rest =>
      if s_userId session =? userId then
        let newBalance :=
          match fresh with Some b => b | None => s_balance session end in
        ((sId, mkSession (s_userId session) (s_username session) newBalance) :: rest,
         [(ToSocket sId, mk newBalance)])
      else
        let '(rest', out) := notifyPayee rest userId fresh mk in
        ((sId, session) :: rest', out)
  end.

(** betOnWinningLine * WIN_MULTIPLIER for one snapshot *)
Definition winAmountOf (snapshot : Snapshot) (winning : option Z) : Z :=
  let key := match winning with
             | Some w => lineKey w
             | None => "linenull"
             end in
  or_zero (jm_get (snap_bets snapshot) key) * WIN_MULTIPLIER.

(** The payout transaction of one snapshot. *)
Definition creditWin (d : DB) (userId winAmount : Z)
           (winning persisted : option Z) : DB :=
  if 0 <? winAmount then
    insert_transaction (update_balance d userId winAmount)
      (mkTransaction userId winAmount TxWin
                     (DescWin (or_zero winning) persisted))
  else d.

(** The body of the loop over round.finalBets.entries(). *)
Definition settleSnapshot (winning persisted : option Z) (roundStart now : Z)
           (acc : DB * JsMap Session * list (Target * Msg))
           (entry : string * Snapshot)
  : DB * JsMap Session * list (Target * Msg) :=
  let '(d, ss, out) := acc in
  let snapshot := snd entry in
  let userId := snap_userId snapshot in
  if userId =? 0 then acc
  else
    let winAmount := winAmountOf snapshot winning in
    let d' := creditWin d userId winAmount winning persisted in
    let '(ss', msgs) :=
      notifyPayee ss userId (select_balance d' userId)
        (fun newBalance =>
           round_result_to (or_else persisted roundStart) winning
                           winAmount newBalance now) in
    (d', ss', out ++ msgs).

Definition settleAll (winning persisted : option Z) (roundStart now : Z)
           (entries : JsMap Snapshot)
           (acc : DB * JsMap Session * list (Target * Msg)) :=
  fold_left (settleSnapshot winning persisted roundStart now) entries acc.

(** The [finally] block: the successor starts at startTime +
    ROUND_DURATION_MS, the completed round's timers are cleared, and the
    successor becomes currentRound with its own timers. *)
Definition rollover (st : State) (r : nat) (now : Z) : State :=
  match heap st !! r with
  | None => st
  | Some rd =>
      let nextStart := startTime rd + ROUND_DURATION_MS in
      let st1 := clearRoundTimers st r in
      let nextRound := createRound nextStart now in
      let ref := length (heap st1) in
      let st2 := mkState (heap st1 ++ [nextRound]) ref (userSessions st1)
                         (db st1) (timerQueue st1) (nextTimerId st1)
                         (outbox st1) (fired st1) in
      scheduleRoundTimers st2 ref now
  end.

(** emitRoundResultAndProcess(round); [m] and [q] are the Math.random()
    value. *)
Definition emitRoundResultAndProcess (st : State) (r : nat) (now m q : Z)
  : State :=
  let st1 := set_heap st
               (alter (fun rd => with_winningLine rd (Some (draw_line m q)))
                      r (heap st)) in
  let st2 := persistRoundResult st1 r in
  let st3 :=
    match heap st2 !! r with
    | None => st2
    | Some rd =>
        let '(d, ss, out) :=
          settleAll (winningLine rd) (persistedRoundId rd) (startTime rd) now
                    (finalBets rd) (db st2, userSessions st2, outbox st2) in
        let st' := mkState (heap st2) (currentRound st2) ss d (timerQueue st2)
                           (nextTimerId st2) out (fired st2) in
        emit st' Broadcast
             (round_result (or_else (persistedRoundId rd) (startTime rd))
                           (winningLine rd) now)
    end in
  rollover st3 r now.

(** The event loop runs the callback of the first pending timer. *)
Definition fireTimer (st : State) (now m q : Z) : State :=
  match timerQueue st with
  | [] => st
  | t :: rest =>
      let r := t_round t in
      let st1 := set_queue st rest in
      match t_kind t with
      | KStart =>
          emitStartRound
            (record_fired st1 (mkFired KStart r (currentRound st) (phase_of st r) None))
            r now
      | KFreeze =>
          emitFreezeBets
            (record_fired st1 (mkFired KFreeze r (currentRound st) (phase_of st r) None))
            r now
      | KResult =>
          emitRoundResultAndProcess
            (record_fired st1 (mkFired KResult r (currentRound st) (phase_of st r)
                                       (Some (draw_line m q))))
            r now m q
      end
  end.

(** *** Socket handlers *)

(** socket.on("authenticate") *)
Definition authenticate (st : State) (sid : string) (tok : Token) : State :=
  match tok with
  | NoToken => emit st (ToSocket sid) (auth_error "No token")
  | BadToken => emit st (ToSocket sid) (auth_error "Invalid token")
  | GoodToken userId =>
      match users (db st) !! userId with
      | None => emit st (ToSocket sid) (auth_error "User not found")
      | Some u =>
          emit (set_sessions st
                  (jm_set (userSessions st) sid
                          (mkSession userId (u_username u) (u_balance u))))
               (ToSocket sid) (authenticated userId (u_balance u))
      end
  end.

(** socket.on("join_game"); the handler reads Date.now() four times, once
    for each of serverTime, freezeIn, resultIn and isBettingOpen, in that
    order. *)
Definition join_game (st : State) (sid : string)
           (serverTime atFreezeIn atResultIn atOpen : Z) : State :=
  match heap st !! currentRound st with
  | None => st
  | Some cur =>
      emit st (ToSocket sid)
           (current_state (startTime cur) serverTime
                          (Z.max 0 (freezeTime cur - atFreezeIn))
                          (Z.max 0 (resultTime cur - atResultIn))
                          (negb (freezeTime cur <=? atOpen)))
  end.

(** The argument of place_bet: { line, amount, operation }. *)
Record PlaceBetData := mkPlaceBetData {
  d_line : string; d_amount : option Z; d_operation : string }.

Definition zeroBets : JsObj :=
  [("line1", 0); ("line2", 0); ("line3", 0); ("line4", 0); ("line5", 0)].

(** The betsObj of a socket once place_bet has run on [data].  The
    embedding is that of the code where [line] is a [plainKey] and the
    stakes and the amount are safe integers; on an inherited key the code
    reads the inherited value and stores a string, or nothing. *)
Definition applyBet (betsObj : JsObj) (data : option PlaceBetData) : JsObj :=
  match data with
  | None => betsObj
  | Some d =>
      if decide (d_operation d = "add") then
        jm_set betsObj (d_line d)
               (or_else (jm_get betsObj (d_line d)) 0 + or_zero (d_amount d))
      else if decide (d_operation d = "remove") then
        jm_set betsObj (d_line d) 0
      else betsObj
  end.

(** socket.on("place_bet") *)
Definition place_bet (st : State) (sid : string) (data : option PlaceBetData)
  : State :=
  match heap st !! currentRound st with
  | None => emit st (ToSocket sid) (place_bet_ack false [])
  | Some cur =>
      let current :=
        match jm_get (bets cur) sid with
        | Some o => o
        | None => zeroBets
        end in
      let betsObj := applyBet current data in
      emit (set_heap st
              (alter (fun rd => with_bets rd (jm_set (bets rd) sid betsObj))
                     (currentRound st) (heap st)))
           (ToSocket sid) (place_bet_ack true betsObj)
  end.

(** The argument of submit_final_bets: { roundId, bets, totalAmount }. *)
Record FinalPayload := mkFinalPayload {
  p_roundId : Z; p_bets : option JsObj; p_totalAmount : option Z }.

Definition payloadBets (payload : FinalPayload) : JsObj :=
  match p_bets payload with Some b => b | None => [] end.

(** Number(payload.totalAmount || Object.values(bets).reduce(...)) *)
Definition totalAmountOf (payload : FinalPayload) : Z :=
  or_else (p_totalAmount payload) (sum_values (payloadBets payload)).

(** The loop over Object.entries(bets) inside the debit transaction. *)
Definition recordBet (userId roundStart : Z) (persisted : option Z)
           (d : DB) (entry : string * Z) : DB :=
  let amountNum := or_zero (Some (snd entry)) in
  if amountNum <=? 0 then d
  else
    insert_player_bet
      (insert_transaction d
         (mkTransaction userId amountNum TxBet (DescBet (fst entry) roundStart)))
      (mkPlayerBet (match persisted with
                    | Some id => if id =? 0 then None else Some id
                    | None => None
                    end) userId (fst entry) amountNum).

(** socket.on("submit_final_bets") *)
Definition submit_final_bets (st : State) (sid : string)
           (payload : FinalPayload) : State :=
  let reject m := emit st (ToSocket sid) (bet_error m) in
  match jm_get (userSessions st) sid with
  | None => reject "Not authenticated"
  | Some session =>
      if s_userId session =? 0 then reject "Not authenticated"
      else
        let userId := s_userId session in
        match heap st !! currentRound st with
        | None => reject "Server error"
        | Some cur =>
            if negb (p_roundId payload =? startTime cur)
            then reject "Round mismatch"
            else
              let bets := payloadBets payload in
              let totalAmount := totalAmountOf payload in
              match select_balance (db st) userId with
              | None => reject "User not found"
              | Some currentBalance =>
                  if currentBalance <? totalAmount
                  then reject "Insufficient balance"
                  else
                    let d1 := update_balance (db st) userId (- totalAmount) in
                    let d2 := fold_left
                                (recordBet userId (startTime cur)
                                           (persistedRoundId cur))
                                bets d1 in
                    let h := alter
                               (fun rd =>
                                  with_finalBets rd
                                    (jm_set (finalBets rd) sid
                                       (mkSnapshot userId bets totalAmount)))
                               (currentRound st) (heap st) in
                    let ss := jm_set (userSessions st) sid
                                (mkSession (s_userId session)
                                           (s_username session)
                                           (currentBalance - totalAmount)) in
                    emit (mkState h (currentRound st) ss d2 (timerQueue st)
                                  (nextTimerId st) (outbox st) (fired st))
                         (ToSocket sid)
                         (bet_accepted (currentBalance - totalAmount))
              end
        end
  end.

(** socket.on("disconnect") *)
Definition disconnect (st : State) (sid : string) : State :=
  set_sessions st (jm_delete (userSessions st) sid).

(** *** The engine as a transition system

    One step is one callback or handler run to completion.  The result
    callback is asynchronous: in the code, handlers can also run between its
    draw and its [finally] block, when no timer is pending; such states are
    not states of this system. *)

Inductive Input :=
| TimerFires (now m q : Z)
| OnAuthenticate (sid : string) (tok : Token)
| OnJoinGame (sid : string) (serverTime atFreezeIn atResultIn atOpen : Z)
| OnPlaceBet (sid : string) (data : option PlaceBetData)
| OnSubmitFinalBets (sid : string) (payload : FinalPayload)
| OnDisconnect (sid : string).

Definition step (st : State) (i : Input) : State :=
  match i with
  | TimerFires now m q => fireTimer st now m q
  | OnAuthenticate sid tok => authenticate st sid tok
  | OnJoinGame sid serverTime atFreezeIn atResultIn atOpen =>
      join_game st sid serverTime atFreezeIn atResultIn atOpen
  | OnPlaceBet sid data => place_bet st sid data
  | OnSubmitFinalBets sid payload => submit_final_bets st sid payload
  | OnDisconnect sid => disconnect st sid
  end.

Definition run (st : State) (inputs : list Input) : State :=
  fold_left step inputs st.

(** A Math.random() value is a double in [0,1). *)
Definition valid_input (i : Input) : Prop :=
  match i with
  | TimerFires _ m q => 0 <= m < 2 ^ 53 /\ 53 <= q
  | _ => True
  end.

(** Module start: [t0] is the Date.now() of the first createRound, [now]
    that of bootstrap; [d] is the database as found. *)
Definition bootstrap (d : DB) (t0 now : Z) : State :=
  let first := createRound t0 t0 in
  let cur :=
    if startTime first + ROUND_DURATION_MS <=? now then
      let slotsPassed := (now - startTime first) / ROUND_DURATION_MS + 1 in
      createRound (startTime first + slotsPassed * ROUND_DURATION_MS) now
    else first in
  scheduleRoundTimers (mkState [cur] 0%nat [] d [] 0%nat [] []) 0%nat now.

Inductive reachable : State -> Prop :=
| reach_boot d t0 now :
    0 < t0 -> t0 <= now -> reachable (bootstrap d t0 now)
| reach_step st i :
    reachable st -> valid_input i -> reachable (step st i).

(** *** The scheduler's invariant

    What the scheduler reads of a round, the full timetable of the rounds
    created so far, and the invariant tying history, pending timers and
    round objects together. *)

Definition sched_view (rd : Round) : Z * Z * Z * option Z :=
  (startTime rd, freezeTime rd, resultTime rd, winningLine rd).

Definition slots (r : nat) : list (nat * TimerKind) :=
  [(r, KStart); (r, KFreeze); (r, KResult)].

Definition schedule (n : nat) : list (nat * TimerKind) :=
  flat_map slots (seq 0 n).

Definition timer_slot (t : Timer) : nat * TimerKind := (t_round t, t_kind t).

Definition fired_slot (f : Fired) : nat * TimerKind := (f_round f, f_kind f).

Definition fired_ok (h : list Round) (f : Fired) : Prop :=
  f_current f = f_round f /\
  match f_kind f with
  | KResult =>
      f_phase f = FROZEN /\
      exists w, f_draw f = Some w /\ 1 <= w <= 5 /\
                winningLine <$> h !! f_round f = Some (Some w)
  | _ => f_phase f = OPEN /\ f_draw f = None
  end.

(** The values assigned to round [r]'s winningLine, in order. *)
Definition draws_of (fs : list Fired) (r : nat) : list Z :=
  omap (fun f => if (f_round f =? r)%nat then f_draw f else None) fs.

Record Inv (st : State) : Prop := mkInv {
  inv_cur : S (currentRound st) = length (heap st);
  inv_queue :
    exists k, (k < 3)%nat /\
      map timer_slot (timerQueue st) = drop k (slots (currentRound st)) /\
      map fired_slot (fired st)
      = schedule (currentRound st) ++ take k (slots (currentRound st));
  inv_fired : Forall (fired_ok (heap st)) (fired st);
  inv_open :
    forall rd, heap st !! currentRound st = Some rd -> winningLine rd = None;
  inv_grid :
    exists s0, 0 < s0 /\
      forall i rd, heap st !! i = Some rd ->
        startTime rd = s0 + Z.of_nat i * ROUND_DURATION_MS /\
        freezeTime rd = startTime rd + FREEZE_OFFSET_MS /\
        resultTime rd = startTime rd + RESULT_OFFSET_MS;
  inv_draws :
    forall r, draws_of (fired st) r
              = match winningLine <$> heap st !! r with
                | Some (Some w) => [w]
                | _ => []
                end }.

(** What went out to every socket, in order: the event, with its roundId
    (start_round, freeze_bets) or its winning line (round_result). *)
Definition broadcast_of (e : Target * Msg) : option (TimerKind * option Z) :=
  match e with
  | (Broadcast, start_round rid _ _ _) => Some (KStart, Some rid)
  | (Broadcast, freeze_bets rid _) => Some (KFreeze, Some rid)
  | (Broadcast, round_result _ w _) => Some (KResult, w)
  | _ => None
  end.

Definition broadcasts (st : State) : list (TimerKind * option Z) :=
  omap broadcast_of (outbox st).

(** The broadcast a recorded callback run stands for. *)
Definition expected (h : list Round) (f : Fired) : TimerKind * option Z :=
  (f_kind f,
   match f_kind f with
   | KResult => f_draw f
   | _ => startTime <$> h !! f_round f
   end).

(** A short run used to exercise the statements below: user 7 holds 1000,
    the first round starts at instant 1000 and its three timers run. *)
Definition demo_db : DB :=
  mkDB {[ 7 := mkUserRow "ann" 1000 ]} [] [] [].

Definition demo_boot : State := bootstrap demo_db 1000 1000.

Definition demo_round : list Input :=
  [TimerFires 1000 0 53; TimerFires 26000 0 53; TimerFires 31000 (2 ^ 52) 53].

Definition demo_state : State := run demo_boot demo_round.

(** Scenario A: user 7 holds [initial], stakes 100 on line 3 during the open
    window, finalizes after the freeze, and line 3 is drawn. *)
Definition scenario_db (initial : Z) : DB :=
  mkDB {[ 7 := mkUserRow "ann" initial ]} [] [] [].

(** The state in which betting has just been frozen. *)
Definition scenarioA_frozen (initial : Z) : State :=
  run (bootstrap (scenario_db initial) 1000 1000)
      [OnAuthenticate "s1" (GoodToken 7);
       TimerFires 1000 0 53;
       OnPlaceBet "s1" (Some (mkPlaceBetData "line3" (Some 100) "add"));
       TimerFires 26000 0 53].

Definition scenarioA_payload : FinalPayload :=
  mkFinalPayload 1000 (Some [("line3", 100)]) (Some 100).

Definition scenarioA (initial : Z) : State :=
  run (scenarioA_frozen initial)
      [OnSubmitFinalBets "s1" scenarioA_payload;
       TimerFires 31000 (2 ^ 52) 53].


(** States and payloads at which the handlers are exercised below: user 7
    holds 1000 and is authenticated on socket s1. *)
Definition frozen_state : State :=
  run (bootstrap (scenario_db 1000) 1000 1000)
      [OnAuthenticate "s1" (GoodToken 7);
       TimerFires 1000 0 53;
       TimerFires 26000 0 53].

Definition open_state : State :=
  run (bootstrap (scenario_db 1000) 1000 1000)
      [OnAuthenticate "s1" (GoodToken 7);
       TimerFires 1000 0 53].

Definition frozen_round : Round :=
  mkRound 1000 26000 31000 41000 (Some 1) None [] []
          [("start", 0%nat); ("freeze", 1%nat); ("result", 2%nat)].

Definition early_payload : FinalPayload :=
  mkFinalPayload 1000 (Some [("line1", 10)]) (Some 10).

Definition understated_payload : FinalPayload :=
  mkFinalPayload 1000 (Some [("line3", 100)]) (Some 1).

Definition empty_payload : FinalPayload := mkFinalPayload 1000 None None.

Definition greedy_payload : FinalPayload :=
  mkFinalPayload 1000 (Some [("line1", 5000)]) (Some 5000).

Definition twin_sessions : JsMap Session :=
  [("s1", mkSession 7 "ann" 900); ("s2", mkSession 7 "ann" 900)].

Definition line3_snapshot : Snapshot := mkSnapshot 7 [("line3", 100)] 100.

(** The rows an accepted finalize adds to transactions and to player_bets:
    one of each per entry of the payload's bets with a positive amount, in
    the payload's order. *)
Definition betRows (userId roundStart : Z) (persisted : option Z) (bets : JsObj)
  : list Transaction * list PlayerBet :=
  let staked := filter (fun e => 0 < snd e) bets in
  (map (fun e => mkTransaction userId (snd e) TxBet (DescBet (fst e) roundStart))
       staked,
   map (fun e => mkPlayerBet (match persisted with
                              | Some id => if id =? 0 then None else Some id
                              | None => None
                              end) userId (fst e) (snd e)) staked).

(** Sessions none of which belongs to user 7. *)
Definition stranger_sessions : JsMap Session := [("s2", mkSession 8 "bob" 5)].

End TimerEngine.

(** ** luckyFive.js, the setInterval-driven rendition

    The payout loop, the wager arithmetic and the messages are those of the
    timer engine (same text, same WIN_MULTIPLIER); the round carries the
    flags _startAnnounced and _freezeAnnounced, and the engine is one tick
    function.  [doneAt] is the Date.now() read by createRound() in the
    [finally] of the result processing, which is taken as one step: a tick
    that fires while it is pending finds both flags set and the winner
    drawn, and does nothing. *)

Module IntervalEngine.

Definition ROUND_DURATION_MS : Z := 30000.
Definition FREEZE_OFFSET_MS : Z := 25000.
Definition RESULT_OFFSET_MS : Z := 27000.

Record Round := mkRound {
  startTime : Z;
  freezeTime : Z;
  resultTime : Z;
  endTime : Z;
  winningLine : option Z;
  bets : JsMap JsObj;
  finalBets : JsMap TimerEngine.Snapshot;
  persistedRoundId : option Z;
  startAnnounced : bool;
  freezeAnnounced : bool }.

(** createRound() *)
Definition createRound (now : Z) : Round :=
  mkRound now (now + FREEZE_OFFSET_MS) (now + RESULT_OFFSET_MS)
          (now + ROUND_DURATION_MS) None [] [] None false false.

Record State := mkState {
  currentRound : Round;
  userSessions : JsMap Session;
  db : DB;
  outbox : list (Target * TimerEngine.Msg) }.

Definition emit (st : State) (to : Target) (m : TimerEngine.Msg) : State :=
  mkState (currentRound st) (userSessions st) (db st) (outbox st ++ [(to, m)]).

Definition set_round (st : State) (r : Round) : State :=
  mkState r (userSessions st) (db st) (outbox st).

(** !currentRound.winningLine *)
Definition noWinner (r : Round) : bool :=
  match winningLine r with Some w => w =? 0 | None => true end.

(** The first branch of the interval callback: announce the start.
    persistRoundStart, which the code does not await, is taken as finished
    within the tick. *)
Definition announceStart (st : State) (now : Z) : State :=
  let r := currentRound st in
  if negb (startAnnounced r) && (startTime r <=? now) then
    let '(d, id) := insert_game_round (db st) (startTime r) None None in
    emit (mkState (mkRound (startTime r) (freezeTime r) (resultTime r) (endTime r)
                           (winningLine r) (bets r) (finalBets r) (Some id)
                           true (freezeAnnounced r))
                  (userSessions st) d (outbox st))
         Broadcast
         (TimerEngine.start_round (startTime r) now
            (Z.max 0 (freezeTime r - now)) (Z.max 0 (resultTime r - now)))
  else st.

(** The second branch: freeze bets. *)
Definition announceFreeze (st : State) (now : Z) : State :=
  let r := currentRound st in
  if negb (freezeAnnounced r) && (freezeTime r <=? now) then
    emit (set_round st
            (mkRound (startTime r) (freezeTime r) (resultTime r) (endTime r)
                     (winningLine r) (bets r) (finalBets r) (persistedRoundId r)
                     (startAnnounced r) true))
         Broadcast (TimerEngine.freeze_bets (startTime r) now)
  else st.

(** persistRoundResult(round), on the store *)
Definition persistRoundResult (d : DB) (r : Round) (w : Z) : DB * option Z :=
  let fallback :=
    let '(d', id) := insert_game_round d (startTime r) (Some (endTime r)) (Some w) in
    (d', Some id) in
  match persistedRoundId r with
  | Some id =>
      if id =? 0 then fallback
      else (update_game_round d id (Some (endTime r)) (Some w), Some id)
  | None => fallback
  end.

(** The third branch: draw, settle every snapshot, start a fresh round. *)
Definition resultAndRollover (st : State) (now m q doneAt : Z) : State :=
  let r := currentRound st in
  if noWinner r && (resultTime r <=? now) then
    let w := draw_line m q in
    let '(d1, persisted) := persistRoundResult (db st) r w in
    let '(d2, ss, out) :=
      TimerEngine.settleAll (Some w) persisted (startTime r) now (finalBets r)
                            (d1, userSessions st, outbox st) in
    mkState (createRound doneAt) ss d2 out
  else st.

(** One firing of the setInterval callback. *)
Definition tick (st : State) (now m q doneAt : Z) : State :=
  resultAndRollover (announceFreeze (announceStart st now) now) now m q doneAt.

(** socket.on('join_game'); Date.now() is read once for each of
    serverTime, freezeIn and resultIn. *)
Definition join_game (st : State) (sid : string)
           (serverTime atFreezeIn atResultIn : Z) : State :=
  let r := currentRound st in
  emit st (ToSocket sid)
       (TimerEngine.current_state (startTime r) serverTime
          (Z.max 0 (freezeTime r - atFreezeIn))
          (Z.max 0 (resultTime r - atResultIn))
          (negb (freezeAnnounced r))).

(** socket.on('place_bet'): the wager set is created before [data] is
    destructured, which throws on a missing argument. *)
Definition place_bet (st : State) (sid : string)
           (data : option TimerEngine.PlaceBetData) : State :=
  let r := currentRound st in
  let current :=
    match jm_get (bets r) sid with
    | Some o => o
    | None => TimerEngine.zeroBets
    end in
  let with_bets b :=
    set_round st
      (mkRound (startTime r) (freezeTime r) (resultTime r) (endTime r)
               (winningLine r) b (finalBets r) (persistedRoundId r)
               (startAnnounced r) (freezeAnnounced r)) in
  match data with
  | None =>
      emit (with_bets (if jm_has (bets r) sid then bets r
                       else jm_set (bets r) sid TimerEngine.zeroBets))
           (ToSocket sid) (TimerEngine.place_bet_ack false [])
  | Some _ =>
      let betsObj := TimerEngine.applyBet current data in
      emit (with_bets (jm_set (bets r) sid betsObj))
           (ToSocket sid) (TimerEngine.place_bet_ack true betsObj)
  end.

(** A state at which the engine is exercised below: the round created at
    1000, user 7 holding 1000 and authenticated on socket s1. *)
Definition fresh_state : State :=
  mkState (createRound 1000) [("s1", mkSession 7 "ann" 1000)]
          (mkDB {[ 7 := mkUserRow "ann" 1000 ]} [] [] []) [].

End IntervalEngine.

(** ** server.js: GameRound and the socket handlers of the monolith *)

Module Monolith.

(** class GameRound (the display matrix is left out); finalBets is keyed by
    userId. *)
Record GameRound := mkGameRound {
  id : Z;
  startTime : Z;
  freezeTime : Z;
  endTime : Z;
  nextRoundTime : Z;
  isBettingOpen : bool;
  winningLine : option Z;
  finalBets : list (Z * (JsObj * Z)) }.

(** new GameRound(): [idNow] is the Date.now() inside the id, [now] the
    later one stored as startTime. *)
Definition newGameRound (idNow now : Z) : GameRound :=
  mkGameRound idNow now (now + 25000) (now + 30000) (now + 33000) true None [].

(** getGameState().timeRemaining *)
Definition timeRemaining (r : GameRound) (now : Z) : Z :=
  Z.max 0 ((freezeTime r - now) / 1000).

(** getTimeUntilNextEvent() *)
Record Countdown := mkCountdown {
  untilFreeze : Z; untilWinner : Z; untilRoundEnd : Z; untilNextRound : Z }.

Definition getTimeUntilNextEvent (r : GameRound) (now : Z) : Countdown :=
  mkCountdown (Z.max 0 (freezeTime r - now))
              (Z.max 0 (freezeTime r + 2000 - now))
              (Z.max 0 (endTime r - now))
              (Z.max 0 (nextRoundTime r - now)).

(** One cell of generateMatrix(): Math.floor(Math.random() * 99) + 1 *)
Definition matrix_cell (m q : Z) : Z := Z.shiftr (round53 (99 * m)) q + 1.

(** userSessions value: { userId, balance, username, pendingBets } *)
Record MSession := mkMSession {
  ms_userId : Z; ms_balance : Z; ms_username : string; ms_pendingBets : JsObj }.

Inductive Msg :=
| start_bet (roundId : Z)
| freeze_bets (roundId : Z)
| announce_winner (winning roundId : Z)
| round_end (roundId : Z) (winning : option Z) (winAmount newBalance : Z)
| timer_update (timeRemaining : Z) (isBettingOpen : bool)
| user_data (balance userId : Z)
| auth_error (error : string)
| bet_error (error : string)
| pending_bet_updated (lineNumber amount newBalance : Z)
| final_bets_none
| final_bets_submitted (bets : JsObj) (newBalance : Z).

(** [socketUser] holds the userId property set on authenticated sockets. *)
Record State := mkState {
  currentRound : GameRound;
  userSessions : JsMap MSession;
  socketUser : JsMap Z;
  db : DB;
  outbox : list (Target * Msg) }.

Definition emit (st : State) (to : Target) (m : Msg) : State :=
  mkState (currentRound st) (userSessions st) (socketUser st) (db st)
          (outbox st ++ [(to, m)]).

Definition set_round (st : State) (r : GameRound) : State :=
  mkState r (userSessions st) (socketUser st) (db st) (outbox st).

(** freezeBets() *)
Definition freezeBets (st : State) : State :=
  let r := currentRound st in
  emit (set_round st
          (mkGameRound (id r) (startTime r) (freezeTime r) (endTime r)
                       (nextRoundTime r) false (winningLine r) (finalBets r)))
       Broadcast (freeze_bets (id r)).

(** announceWinner(); [m] and [q] are the Math.random() value *)
Definition announceWinner (st : State) (m q : Z) : State :=
  let r := currentRound st in
  let w := draw_line m q in
  emit (set_round st
          (mkGameRound (id r) (startTime r) (freezeTime r) (endTime r)
                       (nextRoundTime r) (isBettingOpen r) (Some w) (finalBets r)))
       Broadcast (announce_winner w (id r)).

(** startNewRound() *)
Definition startNewRound (st : State) (idNow now : Z) : State :=
  emit (set_round st (newGameRound idNow now)) Broadcast (start_bet idNow).

(** The functions one firing of the setInterval callback of
    startGameEngine() calls, in order. *)
Inductive Action :=
| DoFreezeBets | DoAnnounceWinner | DoProcessRoundResults | DoStartNewRound.

Definition tickActions (r : GameRound) (now : Z) : list Action :=
  (if isBettingOpen r && (freezeTime r <=? now) then [DoFreezeBets] else [])
  ++ (if (match winningLine r with Some w => w =? 0 | None => true end)
         && (freezeTime r + 2000 <=? now) then [DoAnnounceWinner] else [])
  ++ (if endTime r <=? now then [DoProcessRoundResults] else [])
  ++ (if nextRoundTime r <=? now then [DoStartNewRound] else []).

(** The notification loops of processRoundResults: first session of the
    user, then [break]. *)
Fixpoint notifyFirst (ss : JsMap MSession) (userId : Z)
         (update : MSession -> MSession) (mk : MSession -> Msg)
  : JsMap MSession * list (Target * Msg) :=
  match ss with
  | [] => ([], [])
  | (socketId, userSession) :: rest =>
      if ms_userId userSession =? userId then
        ((socketId, update userSession) :: rest,
         [(ToSocket socketId, mk userSession)])
      else
        let '(rest', out) := notifyFirst rest userId update mk in
        ((socketId, userSession) :: rest', out)
  end.

(** betData.bets[`line${currentRound.winningLine}`] || 0 *)
Definition userBetOnWinningLine (r : GameRound) (entry : Z * (JsObj * Z)) : Z :=
  or_else (jm_get (fst (snd entry))
             (match winningLine r with
              | Some w => lineKey w
              | None => "linenull"
              end)) 0.

(** The body of the loop of processRoundResults(); [now] stands for NOW(). *)
Definition processEntry (r : GameRound) (now : Z)
           (acc : DB * JsMap MSession * list (Target * Msg))
           (entry : Z * (JsObj * Z))
  : DB * JsMap MSession * list (Target * Msg) :=
  let '(d, ss, out) := acc in
  let userId := fst entry in
  let winAmount := userBetOnWinningLine r entry * 2 in
  if 0 <? winAmount then
    let d1 := update_balance d userId winAmount in
    let d2 := insert_transaction d1
                (mkTransaction userId winAmount TxWin (DescWon (winningLine r))) in
    let d3 := fst (insert_game_round d2 now (Some now) (winningLine r)) in
    match select_balance d3 userId with
    | Some balance =>
        let '(ss', msgs) :=
          notifyFirst ss userId
            (fun s => mkMSession (ms_userId s) balance (ms_username s)
                                 (ms_pendingBets s))
            (fun _ => round_end (id r) (winningLine r) winAmount balance) in
        (d3, ss', out ++ msgs)
    | None => (d3, ss, out)
    end
  else
    let '(ss', msgs) :=
      notifyFirst ss userId (fun s => s)
        (fun s => round_end (id r) (winningLine r) 0 (ms_balance s)) in
    (d, ss', out ++ msgs).

(** processRoundResults(), run to completion on the round it started on:
    the run of a tick before nextRoundTime.  The code reads currentRound
    again after each await, so a run overtaken by startNewRound is not a run
    of this function. *)
Definition processRoundResults (st : State) (now : Z) : State :=
  let r := currentRound st in
  let '(d, ss, out) :=
    fold_left (processEntry r now) (finalBets r)
              (db st, userSessions st, outbox st) in
  mkState r ss (socketUser st) d out.

(** A socket's userId property is truthy. *)
Definition authenticatedAs (st : State) (sid : string) : option Z :=
  match jm_get (socketUser st) sid with
  | Some u => if u =? 0 then None else Some u
  | None => None
  end.

(** socket.on('authenticate') *)
Definition authenticate (st : State) (sid : string) (tok : Token) : State :=
  match tok with
  | NoToken | BadToken =>
      emit st (ToSocket sid) (auth_error "Authentication failed")
  | GoodToken userId =>
      match users (db st) !! userId with
      | None => emit st (ToSocket sid) (auth_error "User not found")
      | Some u =>
          emit (mkState (currentRound st)
                        (jm_set (userSessions st) sid
                           (mkMSession userId (u_balance u) (u_username u) []))
                        (jm_set (socketUser st) sid userId)
                        (db st) (outbox st))
               (ToSocket sid) (user_data (u_balance u) userId)
      end
  end.

(** The argument of update_pending_bet: { lineNumber, amount, operation }. *)
Record PendingBetData := mkPendingBetData {
  d_lineNumber : Z; d_amount : Z; d_operation : string }.

(** socket.on('update_pending_bet') *)
Definition update_pending_bet (st : State) (sid : string)
           (data : PendingBetData) : State :=
  let fail := emit st (ToSocket sid) (bet_error "Failed to update bet") in
  match authenticatedAs st sid with
  | None => emit st (ToSocket sid) (bet_error "Not authenticated")
  | Some userId =>
      if negb (isBettingOpen (currentRound st))
      then emit st (ToSocket sid) (bet_error "Betting is closed")
      else
        match select_balance (db st) userId with
        | None => fail
        | Some currentBalance =>
            if bool_decide (d_operation data = "add")
               && (currentBalance <? d_amount data)
            then emit st (ToSocket sid) (bet_error "Insufficient balance")
            else
              match jm_get (userSessions st) sid with
              | None => fail
              | Some userSession =>
                  let key := lineKey (d_lineNumber data) in
                  let held :=
                    or_else (jm_get (ms_pendingBets userSession) key) 0 in
                  let value :=
                    if bool_decide (d_operation data = "add")
                    then held + d_amount data
                    else Z.max 0 (held - d_amount data) in
                  let pending :=
                    jm_set (ms_pendingBets userSession) key value in
                  emit (mkState (currentRound st)
                          (jm_set (userSessions st) sid
                             (mkMSession (ms_userId userSession) currentBalance
                                         (ms_username userSession) pending))
                          (socketUser st) (db st) (outbox st))
                       (ToSocket sid)
                       (pending_bet_updated (d_lineNumber data) value
                                            currentBalance)
              end
        end
  end.

(** Object.values(pendingBets).reduce((sum, bet) => sum + bet, 0) *)
Definition pendingTotal (pendingBets : JsObj) : Z :=
  fold_left (fun sum kv => sum + snd kv) pendingBets 0.

(** The loop recording one 'bet' transaction per positive pending stake. *)
Definition recordPending (userId : Z) (d : DB) (entry : string * Z) : DB :=
  if 0 <? snd entry
  then insert_transaction d
         (mkTransaction userId (snd entry) TxBet (DescBetOn (fst entry)))
  else d.

(** currentRound.finalBets.set(userId, value) *)
Fixpoint finalBets_set (fb : list (Z * (JsObj * Z))) (userId : Z)
         (v : JsObj * Z) : list (Z * (JsObj * Z)) :=
  match fb with
  | [] => [(userId, v)]
  | (u, v') :: rest =>
      if u =? userId then (userId, v) :: rest
      else (u, v') :: finalBets_set rest userId v
  end.

(** socket.on('submit_final_bets'), run to completion; a socket whose
    session is gone makes the handler throw before it answers.  The code
    reads pendingBets before its first await and empties them after the
    commit: a second call handled in between is not a run of this
    function. *)
Definition submit_final_bets (st : State) (sid : string) : State :=
  match authenticatedAs st sid with
  | None => emit st (ToSocket sid) (bet_error "Not authenticated")
  | Some userId =>
      if isBettingOpen (currentRound st)
      then emit st (ToSocket sid) (bet_error "Betting still open")
      else
        match jm_get (userSessions st) sid with
        | None => st
        | Some userSession =>
            let pendingBets := ms_pendingBets userSession in
            let totalAmount := pendingTotal pendingBets in
            if totalAmount =? 0
            then emit st (ToSocket sid) final_bets_none
            else
              match select_balance (db st) userId with
              | None =>
                  emit st (ToSocket sid)
                       (bet_error "Failed to submit final bets")
              | Some balance =>
                  if balance <? totalAmount
                  then emit st (ToSocket sid)
                            (bet_error "Insufficient balance for final bets")
                  else
                    let d1 := update_balance (db st) userId (- totalAmount) in
                    let d2 := fold_left (recordPending userId) pendingBets d1 in
                    let r := currentRound st in
                    let r' := mkGameRound (id r) (startTime r) (freezeTime r)
                                (endTime r) (nextRoundTime r) (isBettingOpen r)
                                (winningLine r)
                                (finalBets_set (finalBets r) userId
                                               (pendingBets, totalAmount)) in
                    emit (mkState r'
                            (jm_set (userSessions st) sid
                               (mkMSession (ms_userId userSession)
                                           (ms_balance userSession - totalAmount)
                                           (ms_username userSession) []))
                            (socketUser st) d2 (outbox st))
                         (ToSocket sid)
                         (final_bets_submitted pendingBets
                            (ms_balance userSession - totalAmount))
              end
        end
  end.

(** socket.on('disconnect') *)
Definition disconnect (st : State) (sid : string) : State :=
  mkState (currentRound st) (jm_delete (userSessions st) sid) (socketUser st)
          (db st) (outbox st).

(** States at which the handlers are exercised below: user 7 holds 1000,
    authenticates on socket s1 and puts 100 on line 3 while the round of
    instant 1000 is open; the bets are then frozen and line 3 is drawn. *)
Definition started_state : State :=
  authenticate
    (mkState (newGameRound 1000 1000) [] []
             (mkDB {[ 7 := mkUserRow "ann" 1000 ]} [] [] []) [])
    "s1" (GoodToken 7).

Definition staked_state : State :=
  update_pending_bet started_state "s1" (mkPendingBetData 3 100 "add").

Definition frozen_state : State := freezeBets staked_state.

Definition drawn_state : State :=
  announceWinner (submit_final_bets frozen_state "s1") (2 ^ 52) 53.

End Monolith.

(** * Properties *)

Example lineKey_3 : lineKey 3 = "line3".
Proof. reflexivity. Qed.

Example draw_line_low : draw_line 0 53 = 1.
Proof. reflexivity. Qed.

Example draw_line_high : draw_line (2 ^ 53 - 1) 53 = 5.
Proof. reflexivity. Qed.

(** The product rounds up across the boundary 3 here: the exact value is
    [3 - 2^-53], the double is [3.0]. *)
Example draw_line_rounds_up : draw_line ((3 * 2 ^ 53 - 1) / 5) 53 = 4.
Proof. reflexivity. Qed.

Lemma round53_nonneg n : 0 <= n -> 0 <= round53 n.
Proof.
  intros Hn. unfold round53. cbv zeta.
  destruct (Z.leb_spec (Z.log2 n - 52) 0) as [|Hs]; [lia|].
  set (s := Z.log2 n - 52) in *.
  assert (0 <= Z.shiftr n s) by (apply Z.shiftr_nonneg; lia).
  repeat case_match; rewrite Z.shiftl_mul_pow2 by lia; nia.
Qed.

Lemma round53_bound m : 0 <= m < 2 ^ 53 -> round53 (5 * m) < 5 * 2 ^ 53.
Proof.
  intros Hm. unfold round53. cbv zeta.
  destruct (Z.leb_spec (Z.log2 (5 * m) - 52) 0) as [|Hs]; [lia|].
  assert (Hpos : 0 < 5 * m) by (destruct (Z.log2_null (5 * m)); lia).
  assert (Hlog : Z.log2 (5 * m) < 56).
  { apply Z.log2_lt_pow2; [lia|]. change (2 ^ 56) with (8 * 2 ^ 53). lia. }
  destruct (Z.log2_spec (5 * m) Hpos) as [Hlo Hhi].
  set (n := 5 * m) in *. set (l := Z.log2 n) in *.
  assert (Hcase : l = 53 \/ l = 54 \/ l = 55) by lia.
  destruct Hcase as [E | [E | E]]; rewrite E in *; clear E;
    cbn [Z.sub Z.add Z.opp Z.pos_sub Pos.pred_double Z.succ_double
         Z.pred_double Z.double] in *;
    rewrite ?Z.shiftr_div_pow2, ?Z.shiftl_mul_pow2 by lia.
  - change (53 - 52) with 1. change (1 - 1) with 0.
    rewrite ?Z.shiftr_div_pow2, ?Z.shiftl_mul_pow2 by lia.
    change (2 ^ 1) with 2. change (2 ^ 0) with 1.
    change (2 ^ (53 + 1)) with (2 * 2 ^ 53) in Hhi.
    pose proof (Z.div_mod n 2 ltac:(lia)).
    pose proof (Z.mod_pos_bound n 2 ltac:(lia)).
    repeat case_match; lia.
  - change (54 - 52) with 2. change (2 - 1) with 1.
    rewrite ?Z.shiftr_div_pow2, ?Z.shiftl_mul_pow2 by lia.
    change (2 ^ 2) with 4. change (2 ^ 1) with 2.
    change (2 ^ (54 + 1)) with (4 * 2 ^ 53) in Hhi.
    pose proof (Z.div_mod n 4 ltac:(lia)).
    pose proof (Z.mod_pos_bound n 4 ltac:(lia)).
    repeat case_match; lia.
  - change (55 - 52) with 3. change (3 - 1) with 2.
    rewrite ?Z.shiftr_div_pow2, ?Z.shiftl_mul_pow2 by lia.
    change (2 ^ 3) with 8. change (2 ^ 2) with 4.
    pose proof (Z.div_mod n 8 ltac:(lia)).
    pose proof (Z.mod_pos_bound n 8 ltac:(lia)).
    repeat case_match; lia.
Qed.

Lemma draw_line_range m q :
  0 <= m < 2 ^ 53 -> 53 <= q -> 1 <= draw_line m q <= 5.
Proof.
  intros Hm Hq. unfold draw_line.
  pose proof (round53_nonneg (5 * m) ltac:(lia)) as H0.
  pose proof (round53_bound m Hm) as H1.
  rewrite Z.shiftr_div_pow2 by lia.
  assert (Hp : 2 ^ 53 <= 2 ^ q) by (apply Z.pow_le_mono_r; lia).
  assert (0 < 2 ^ 53) by lia.
  assert (0 <= round53 (5 * m) / 2 ^ q) by (apply Z.div_pos; lia).
  assert (round53 (5 * m) / 2 ^ q < 5).
  { apply Z.div_lt_upper_bound; [lia|]. nia. }
  lia.
Qed.

(** ** The timer engine: scheduler invariant *)

Module TimerEngineFacts.
Import TimerEngine.

Lemma view_alter (f : Round -> Round) r (h : list Round) :
  (forall rd, sched_view (f rd) = sched_view rd) ->
  sched_view <$> alter f r h = sched_view <$> h.
Proof.
  intros Hf. rewrite (list_fmap_alter sched_view f id).
  - apply list_alter_id. reflexivity.
  - apply Forall_forall. intros rd _. apply Hf.
Qed.

Lemma view_lookup (h h' : list Round) i rd' :
  sched_view <$> h' = sched_view <$> h ->
  h' !! i = Some rd' ->
  exists rd, h !! i = Some rd /\ sched_view rd = sched_view rd'.
Proof.
  intros Hv Hl.
  assert (Hx : (sched_view <$> h) !! i = Some (sched_view rd')).
  { rewrite <- Hv, list_lookup_fmap, Hl. reflexivity. }
  rewrite list_lookup_fmap in Hx.
  destruct (h !! i) as [rd|]; [|discriminate].
  exists rd. split; [reflexivity|]. simpl in Hx. congruence.
Qed.

Lemma view_length (h h' : list Round) :
  sched_view <$> h' = sched_view <$> h -> length h' = length h.
Proof.
  intros Hv. rewrite <- (length_fmap sched_view h'), Hv. apply length_fmap.
Qed.

Lemma fired_ok_view (h h' : list Round) f :
  sched_view <$> h' = sched_view <$> h -> fired_ok h f -> fired_ok h' f.
Proof.
  intros Hv [Hc Hk]. split; [exact Hc|].
  destruct (f_kind f); try exact Hk.
  destruct Hk as [Hp (w & Hd & Hw & Hl)]. split; [exact Hp|].
  exists w. repeat split; try tauto.
  assert (E : winningLine <$> h' !! f_round f = winningLine <$> h !! f_round f).
  { assert (Hx : (sched_view <$> h') !! f_round f = (sched_view <$> h) !! f_round f)
      by now rewrite Hv.
    rewrite !list_lookup_fmap in Hx.
    destruct (h' !! f_round f), (h !! f_round f); cbn in *;
      try discriminate; try reflexivity.
    inversion Hx. reflexivity. }
  now rewrite E.
Qed.

Lemma winning_view (h : list Round) r :
  winningLine <$> h !! r = snd <$> (sched_view <$> h) !! r.
Proof. rewrite list_lookup_fmap. destruct (h !! r); reflexivity. Qed.

(** The invariant only reads the scheduler's view of the state. *)
Lemma Inv_frame st st' :
  sched_view <$> heap st' = sched_view <$> heap st ->
  currentRound st' = currentRound st ->
  timerQueue st' = timerQueue st ->
  fired st' = fired st ->
  Inv st -> Inv st'.
Proof.
  intros Hv Hc Hq Hf [I1 I2 I3 I4 I5 I6].
  constructor.
  - rewrite Hc, (view_length _ _ Hv). exact I1.
  - rewrite Hc, Hq, Hf. exact I2.
  - rewrite Hf. eapply Forall_impl; [exact I3|].
    intros f. apply fired_ok_view. exact Hv.
  - intros rd' Hl. rewrite Hc in Hl.
    destruct (view_lookup _ _ _ _ Hv Hl) as (rd & Hrd & E).
    specialize (I4 rd Hrd). inversion E. congruence.
  - destruct I5 as (s0 & Hs0 & Hg). exists s0. split; [exact Hs0|].
    intros i rd' Hl.
    destruct (view_lookup _ _ _ _ Hv Hl) as (rd & Hrd & E).
    specialize (Hg i rd Hrd). inversion E. lia.
  - intros r. rewrite Hf, winning_view, Hv, <- winning_view. apply I6.
Qed.

Lemma schedule_S n : schedule (S n) = schedule n ++ slots n.
Proof.
  unfold schedule. rewrite seq_S, flat_map_app. reflexivity.
Qed.

Lemma clear_nil (l : JsMap nat) :
  fold_left (fun q kv => clearTimeout q (snd kv)) l [] = [].
Proof. induction l as [|a l IH]; simpl; [reflexivity|exact IH]. Qed.

(** scheduleRoundTimers on an idle timer list queues the three callbacks
    in the order start, freeze, result. *)
Lemma scheduleRoundTimers_idle st r rd now :
  heap st !! r = Some rd ->
  timerQueue st = [] ->
  startTime rd <= freezeTime rd <= resultTime rd ->
  let st' := scheduleRoundTimers st r now in
  map timer_slot (timerQueue st') = slots r /\
  sched_view <$> heap st' = sched_view <$> heap st /\
  currentRound st' = currentRound st /\
  fired st' = fired st.
Proof.
  intros Hl Hq Ht. unfold scheduleRoundTimers. rewrite Hl.
  unfold setTimeout; cbn -[Z.max]. rewrite Hq. cbn -[Z.max].
  repeat split.
  - repeat match goal with
           | |- context [if ?a <? ?b then _ else _] =>
               destruct (Z.ltb_spec a b); [lia|]; cbn -[Z.max]
           end.
    reflexivity.
  - rewrite !view_alter; reflexivity.
Qed.

Lemma persistRoundStart_skel st r :
  let st' := persistRoundStart st r in
  sched_view <$> heap st' = sched_view <$> heap st /\
  currentRound st' = currentRound st /\
  timerQueue st' = timerQueue st /\
  fired st' = fired st.
Proof.
  unfold persistRoundStart. destruct (heap st !! r); cbn; [|tauto].
  rewrite view_alter by reflexivity. tauto.
Qed.

Lemma persistRoundResult_skel st r :
  let st' := persistRoundResult st r in
  sched_view <$> heap st' = sched_view <$> heap st /\
  currentRound st' = currentRound st /\
  timerQueue st' = timerQueue st /\
  fired st' = fired st.
Proof.
  unfold persistRoundResult. destruct (heap st !! r) as [rd|]; cbn; [|tauto].
  destruct (persistedRoundId rd) as [id|]; [destruct (id =? 0)|]; cbn;
    rewrite ?view_alter by reflexivity; tauto.
Qed.

Lemma emitStartRound_skel st r now :
  let st' := emitStartRound st r now in
  sched_view <$> heap st' = sched_view <$> heap st /\
  currentRound st' = currentRound st /\
  timerQueue st' = timerQueue st /\
  fired st' = fired st.
Proof.
  unfold emitStartRound. destruct (heap st !! r); cbn; [|tauto].
  apply persistRoundStart_skel.
Qed.

Lemma emitFreezeBets_skel st r now :
  let st' := emitFreezeBets st r now in
  heap st' = heap st /\
  currentRound st' = currentRound st /\
  timerQueue st' = timerQueue st /\
  fired st' = fired st.
Proof. unfold emitFreezeBets. destruct (heap st !! r); cbn; tauto. Qed.

Lemma rollover_skel st r rd now :
  heap st !! r = Some rd ->
  timerQueue st = [] ->
  0 < startTime rd + ROUND_DURATION_MS ->
  let st' := rollover st r now in
  sched_view <$> heap st'
  = (sched_view <$> heap st)
      ++ [(startTime rd + ROUND_DURATION_MS,
           startTime rd + ROUND_DURATION_MS + FREEZE_OFFSET_MS,
           startTime rd + ROUND_DURATION_MS + RESULT_OFFSET_MS, None)] /\
  currentRound st' = length (heap st) /\
  map timer_slot (timerQueue st') = slots (length (heap st)) /\
  fired st' = fired st.
Proof.
  intros Hl Hq Hpos. unfold rollover. rewrite Hl.
  unfold clearRoundTimers. rewrite Hl, Hq, clear_nil. cbn [set_queue set_heap
    heap currentRound userSessions db timerQueue nextTimerId outbox fired].
  set (h1 := alter (fun rd0 => with_timers rd0 []) r (heap st)).
  assert (Hlen : length h1 = length (heap st)) by apply length_alter.
  set (next := createRound (startTime rd + ROUND_DURATION_MS) now).
  assert (Hnext : sched_view next
                  = (startTime rd + ROUND_DURATION_MS,
                     startTime rd + ROUND_DURATION_MS + FREEZE_OFFSET_MS,
                     startTime rd + ROUND_DURATION_MS + RESULT_OFFSET_MS, None)).
  { unfold next, createRound, sched_view, or_else; cbn.
    destruct (Z.eqb_spec (startTime rd + ROUND_DURATION_MS) 0); [lia|].
    reflexivity. }
  match goal with
  | |- context [scheduleRoundTimers ?s ?ref now] =>
      pose proof (scheduleRoundTimers_idle s ref next now) as Hs
  end.
  cbn [heap timerQueue currentRound fired] in Hs.
  destruct Hs as (Hs1 & Hs2 & Hs3 & Hs4).
  - rewrite (lookup_app_r h1 [next]) by apply Nat.le_refl.
    now rewrite Nat.sub_diag.
  - reflexivity.
  - unfold next, createRound; cbn.
    unfold FREEZE_OFFSET_MS, RESULT_OFFSET_MS. lia.
  - rewrite Hlen in *. repeat split; try assumption.
    rewrite Hs2, fmap_app. cbn [fmap list_fmap]. rewrite Hnext.
    unfold h1. now rewrite view_alter by reflexivity.
Qed.

Lemma view_lookup_rev (h h' : list Round) i rd :
  sched_view <$> h' = sched_view <$> h ->
  h !! i = Some rd ->
  exists rd', h' !! i = Some rd' /\ sched_view rd' = sched_view rd.
Proof.
  intros Hv Hl.
  destruct (view_lookup h' h i rd (eq_sym Hv) Hl) as (rd' & H1 & H2).
  eauto.
Qed.

Lemma emitRoundResultAndProcess_skel st r rd now m q :
  heap st !! r = Some rd ->
  timerQueue st = [] ->
  0 < startTime rd + ROUND_DURATION_MS ->
  let st' := emitRoundResultAndProcess st r now m q in
  sched_view <$> heap st'
  = (sched_view <$>
       alter (fun rd => with_winningLine rd (Some (draw_line m q))) r (heap st))
      ++ [(startTime rd + ROUND_DURATION_MS,
           startTime rd + ROUND_DURATION_MS + FREEZE_OFFSET_MS,
           startTime rd + ROUND_DURATION_MS + RESULT_OFFSET_MS, None)] /\
  currentRound st' = length (heap st) /\
  map timer_slot (timerQueue st') = slots (length (heap st)) /\
  fired st' = fired st.
Proof.
  intros Hl Hq Hpos. unfold emitRoundResultAndProcess.
  set (h1 := alter (fun rd0 => with_winningLine rd0 (Some (draw_line m q))) r (heap st)).
  set (st1 := set_heap st h1).
  assert (Hl1 : heap st1 !! r = Some (with_winningLine rd (Some (draw_line m q)))).
  { unfold st1, h1; cbn. rewrite list_lookup_alter_eq, Hl. reflexivity. }
  destruct (persistRoundResult_skel st1 r) as (P1 & P2 & P3 & P4).
  set (st2 := persistRoundResult st1 r) in *.
  destruct (view_lookup_rev _ _ _ _ P1 Hl1) as (rd2 & Hl2 & Hv2).
  rewrite Hl2.
  destruct (settleAll (winningLine rd2) (persistedRoundId rd2) (startTime rd2)
              now (finalBets rd2) (db st2, userSessions st2, outbox st2))
    as [[d ss] out].
  match goal with
  | |- context [rollover ?s r now] =>
      pose proof (rollover_skel s r rd2 now) as Hr
  end.
  cbn [emit heap timerQueue currentRound fired] in Hr.
  assert (Hst : startTime rd2 = startTime rd).
  { unfold sched_view in Hv2. cbn in Hv2. congruence. }
  destruct Hr as (R1 & R2 & R3 & R4).
  - exact Hl2.
  - rewrite P3. unfold st1. cbn. exact Hq.
  - rewrite Hst. exact Hpos.
  - assert (Hlen : length (heap st2) = length (heap st)).
    { rewrite (view_length _ _ P1). unfold st1, h1; cbn. apply length_alter. }
    rewrite Hlen in *. repeat split; try assumption.
    + rewrite R1, P1, Hst. reflexivity.
    + rewrite R4, P4. reflexivity.
Qed.

(** Handlers of socket events leave the scheduler's view alone. *)
Lemma socket_step_skel st i :
  match i with TimerFires _ _ _ => False | _ => True end ->
  let st' := step st i in
  sched_view <$> heap st' = sched_view <$> heap st /\
  currentRound st' = currentRound st /\
  timerQueue st' = timerQueue st /\
  fired st' = fired st.
Proof.
  destruct i as [now m q|sid tok|sid now|sid data|sid payload|sid];
    intros Hi; [destruct Hi| | | | |]; cbn.
  - unfold authenticate. destruct tok; cbn; try tauto.
    destruct (users (db st) !! userId); cbn; tauto.
  - unfold join_game. destruct (heap st !! currentRound st); cbn; tauto.
  - unfold place_bet. destruct (heap st !! currentRound st); cbn; [|tauto].
    rewrite view_alter by reflexivity. tauto.
  - unfold submit_final_bets.
    repeat (case_match; cbn; try tauto).
    rewrite view_alter by reflexivity. tauto.
  - tauto.
Qed.

Lemma Inv_bootstrap d t0 now : 0 < t0 -> t0 <= now -> Inv (bootstrap d t0 now).
Proof.
  intros H0 Hle. unfold bootstrap.
  set (first := createRound t0 t0).
  set (cur := if startTime first + ROUND_DURATION_MS <=? now then _ else first).
  assert (Hcur : 0 < startTime cur /\
                 freezeTime cur = startTime cur + FREEZE_OFFSET_MS /\
                 resultTime cur = startTime cur + RESULT_OFFSET_MS /\
                 winningLine cur = None).
  { assert (Hf : startTime first = t0).
    { unfold first, createRound, or_else; cbn.
      destruct (Z.eqb_spec t0 0); [lia|reflexivity]. }
    unfold cur. destruct (Z.leb_spec (startTime first + ROUND_DURATION_MS) now).
    - rewrite Hf in *. unfold createRound, or_else; cbn.
      assert (0 <= (now - t0) / ROUND_DURATION_MS).
      { apply Z.div_pos; unfold ROUND_DURATION_MS in *; lia. }
      match goal with |- context [?x =? 0] => destruct (Z.eqb_spec x 0) end;
        cbn; unfold ROUND_DURATION_MS in *; [nia|].
      repeat split; nia.
    - unfold first, createRound, or_else in *; cbn in *.
      destruct (Z.eqb_spec t0 0); [lia|]. repeat split; lia. }
  destruct Hcur as (C1 & C2 & C3 & C4).
  match goal with
  | |- Inv (scheduleRoundTimers ?s ?r now) =>
      destruct (scheduleRoundTimers_idle s r cur now) as (S1 & S2 & S3 & S4)
  end; [reflexivity|reflexivity|
        rewrite C2, C3; unfold FREEZE_OFFSET_MS, RESULT_OFFSET_MS; lia|].
  cbn [heap currentRound fired] in *.
  constructor.
  - rewrite S3, (view_length _ _ S2). reflexivity.
  - exists 0%nat. rewrite S3, S4, S1. repeat split. lia.
  - rewrite S4. constructor.
  - rewrite S3. intros rd Hrd.
    destruct (view_lookup _ _ _ _ S2 Hrd) as (rd0 & E0 & E1).
    cbn in E0. injection E0 as <-. unfold sched_view in E1. congruence.
  - exists (startTime cur). split; [exact C1|]. intros i rd Hrd.
    destruct (view_lookup _ _ _ _ S2 Hrd) as (rd0 & E0 & E1).
    destruct i; cbn in E0; [|discriminate]. injection E0 as <-.
    unfold sched_view in E1. injection E1 as E1 E2 E3 E4.
    rewrite <- E1, <- E2, <- E3. cbn. lia.
  - intros r. rewrite S4, winning_view, S2. cbn.
    destruct r; cbn; [rewrite C4|]; reflexivity.
Qed.

Lemma fired_ok_keep (h h' : list Round) f :
  (forall w, winningLine <$> h !! f_round f = Some (Some w) ->
             winningLine <$> h' !! f_round f = Some (Some w)) ->
  fired_ok h f -> fired_ok h' f.
Proof.
  intros Hk [Hc Hf]. split; [exact Hc|].
  destruct (f_kind f); try exact Hf.
  destruct Hf as [Hp (w & Hd & Hw & Hl)]. split; [exact Hp|].
  exists w. repeat split; try tauto. apply Hk, Hl.
Qed.

Lemma Inv_fireTimer st now m q :
  0 <= m < 2 ^ 53 -> 53 <= q -> Inv st -> Inv (fireTimer st now m q).
Proof.
  intros Hm Hq HI.
  pose proof HI as [I1 (k & Hk & Hqs & Hfs) I3 I4 (s0 & Hs0 & Hg) I6].
  destruct (lookup_lt_is_Some_2 (heap st) (currentRound st) ltac:(lia)) as [rd Hrd].
  unfold fireTimer.
  destruct (timerQueue st) as [|t rest] eqn:Eq.
  { destruct k as [|[|[|k]]]; cbn in Hqs; discriminate || lia. }
  assert (Hph : forall k', pending st k' (currentRound st)
                = existsb (fun t => bool_decide (t_kind t = k') && (t_round t =? currentRound st)%nat)
                          (t :: rest)).
  { intros k'. unfold pending. now rewrite Eq. }
  destruct k as [|[|[|k]]]; [ | | |lia]; cbn in Hqs, Hfs;
    destruct t as [id due kd r]; injection Hqs as -> -> Hrest; cbn [t_kind t_round].
  - (* start_round *)
    match goal with |- Inv (emitStartRound ?s _ _) =>
      destruct (emitStartRound_skel s (currentRound st) now) as (E1 & E2 & E3 & E4) end.
    cbn [record_fired set_queue heap currentRound timerQueue fired] in *.
    constructor.
    + rewrite E2, (view_length _ _ E1). exact I1.
    + exists 1%nat. rewrite E2, E3, E4, map_app, Hfs, Hrest.
      repeat split; [lia|rewrite <- app_assoc; reflexivity].
    + rewrite E4. apply Forall_app. split.
      * eapply Forall_impl; [exact I3|]. intros f. apply fired_ok_view, E1.
      * constructor; [|constructor]. split; [reflexivity|]. cbn.
        split; [|reflexivity]. unfold phase_of. rewrite Hph.
        destruct rest as [|[id2 due2 k2 r2] rest']; [discriminate|].
        cbn in Hrest. injection Hrest as -> -> _. cbn.
        rewrite Nat.eqb_refl. rewrite orb_true_r. reflexivity.
    + intros rd' Hl. rewrite E2 in Hl.
      destruct (view_lookup _ _ _ _ E1 Hl) as (rd0 & Hrd0 & E).
      specialize (I4 rd0 Hrd0). unfold sched_view in E. congruence.
    + exists s0. split; [exact Hs0|]. intros i rd' Hl.
      destruct (view_lookup _ _ _ _ E1 Hl) as (rd0 & Hrd0 & E).
      specialize (Hg i rd0 Hrd0). unfold sched_view in E.
      injection E as E1' E2' E3' E4'. lia.
    + intros r'. rewrite E4, winning_view, E1, <- winning_view.
      unfold draws_of. rewrite omap_app. cbn.
      destruct (Nat.eqb _ _); rewrite app_nil_r; apply I6.
  - (* freeze_bets *)
    match goal with |- Inv (emitFreezeBets ?s _ _) =>
      destruct (emitFreezeBets_skel s (currentRound st) now) as (E1 & E2 & E3 & E4) end.
    cbn [record_fired set_queue heap currentRound timerQueue fired] in *.
    constructor.
    + rewrite E2, E1. exact I1.
    + exists 2%nat. rewrite E2, E3, E4, map_app, Hfs, Hrest.
      repeat split; [lia|rewrite <- app_assoc; reflexivity].
    + rewrite E4, E1. apply Forall_app. split; [exact I3|].
      constructor; [|constructor]. split; [reflexivity|]. cbn.
      split; [|reflexivity]. unfold phase_of. rewrite Hph. cbn.
      rewrite Nat.eqb_refl. reflexivity.
    + rewrite E2, E1. exact I4.
    + exists s0. rewrite E1. split; [exact Hs0|exact Hg].
    + intros r'. rewrite E4, E1.
      unfold draws_of. rewrite omap_app. cbn.
      destruct (Nat.eqb _ _); rewrite app_nil_r; apply I6.
  - (* round_result *)
    destruct rest; [|discriminate]. clear Hrest.
    destruct (Hg _ _ Hrd) as (G1 & G2 & G3).
    match goal with |- Inv (emitRoundResultAndProcess ?s _ _ _ _) =>
      destruct (emitRoundResultAndProcess_skel s (currentRound st) rd now m q)
        as (E1 & E2 & E3 & E4) end;
      [exact Hrd|reflexivity|unfold ROUND_DURATION_MS in *; lia|].
    cbn [record_fired set_queue heap currentRound timerQueue fired] in *.
    set (st' := emitRoundResultAndProcess _ _ _ _ _) in *.
    set (h1 := alter (fun rd0 => with_winningLine rd0 (Some (draw_line m q)))
                     (currentRound st) (heap st)) in *.
    assert (Hlen1 : length h1 = length (heap st)) by apply length_alter.
    assert (Hlen : length (heap st') = S (length (heap st))).
    { rewrite <- (length_fmap sched_view), E1, length_app, length_fmap, Hlen1.
      cbn. lia. }
    assert (Hold : forall i rd', (i < length (heap st))%nat ->
                     heap st' !! i = Some rd' ->
                     exists rd1, h1 !! i = Some rd1 /\ sched_view rd1 = sched_view rd').
    { intros i rd' Hi Hl.
      assert (Hx : (sched_view <$> heap st') !! i = Some (sched_view rd'))
        by (rewrite list_lookup_fmap, Hl; reflexivity).
      rewrite E1, lookup_app_l in Hx by (rewrite length_fmap; lia).
      rewrite list_lookup_fmap in Hx.
      destruct (h1 !! i) as [rd1|]; [|discriminate]. cbn in Hx.
      exists rd1. split; [reflexivity|congruence]. }
    assert (Hnew : forall rd', heap st' !! length (heap st) = Some rd' ->
                     sched_view rd'
                     = (startTime rd + ROUND_DURATION_MS,
                        startTime rd + ROUND_DURATION_MS + FREEZE_OFFSET_MS,
                        startTime rd + ROUND_DURATION_MS + RESULT_OFFSET_MS, None)).
    { intros rd' Hl.
      assert (Hx : (sched_view <$> heap st') !! length (heap st) = Some (sched_view rd'))
        by (rewrite list_lookup_fmap, Hl; reflexivity).
      rewrite E1, lookup_app_r in Hx by (rewrite length_fmap; lia).
      rewrite length_fmap, Hlen1, Nat.sub_diag in Hx. cbn in Hx. congruence. }
    constructor.
    + rewrite E2, Hlen. reflexivity.
    + exists 0%nat. rewrite E2, E3, E4, map_app, Hfs, <- I1, schedule_S.
      repeat split; [lia|]. rewrite app_nil_r, <- app_assoc. reflexivity.
    + rewrite E4. apply Forall_app. split.
      * eapply Forall_impl; [exact I3|]. intros f. apply fired_ok_keep.
        intros w Hw.
        assert (Hne : f_round f <> currentRound st).
        { intros E. rewrite E, Hrd in Hw. cbn in Hw. rewrite (I4 rd Hrd) in Hw.
          discriminate. }
        destruct (heap st !! f_round f) as [rdf|] eqn:Hf; [|discriminate].
        pose proof (lookup_lt_Some _ _ _ Hf) as Hlt.
        destruct (lookup_lt_is_Some_2 (heap st') (f_round f) ltac:(lia)) as [rd' Hl'].
        destruct (Hold _ _ Hlt Hl') as (rd1 & H1 & H2).
        unfold h1 in H1. rewrite list_lookup_alter_ne, Hf in H1 by congruence.
        injection H1 as <-. rewrite Hl'. cbn in *. unfold sched_view in H2.
        congruence.
      * constructor; [|constructor]. split; [reflexivity|]. cbn.
        split.
        { unfold phase_of. rewrite !Hph. cbn. rewrite Nat.eqb_refl. reflexivity. }
        exists (draw_line m q). split; [reflexivity|].
        split; [apply draw_line_range; assumption|].
        assert (Hlt : (currentRound st < length (heap st))%nat) by lia.
        destruct (lookup_lt_is_Some_2 (heap st') (currentRound st) ltac:(lia)) as [rd' Hl'].
        destruct (Hold _ _ Hlt Hl') as (rd1 & H1 & H2).
        unfold h1 in H1. rewrite list_lookup_alter_eq, Hrd in H1. cbn in H1.
        injection H1 as <-. rewrite Hl'. cbn. unfold sched_view in H2. cbn in H2.
        congruence.
    + rewrite E2. intros rd' Hl. specialize (Hnew rd' Hl).
      unfold sched_view in Hnew. congruence.
    + exists s0. split; [exact Hs0|]. intros i rd' Hl.
      pose proof (lookup_lt_Some _ _ _ Hl) as Hi. rewrite Hlen in Hi.
      destruct (decide (i = length (heap st))) as [->|Hne].
      * specialize (Hnew rd' Hl). unfold sched_view in Hnew.
        injection Hnew as N1 N2 N3 N4. rewrite N1, N2, N3, G1, <- I1.
        unfold ROUND_DURATION_MS. lia.
      * assert (Hlt : (i < length (heap st))%nat) by lia.
        destruct (Hold _ _ Hlt Hl) as (rd1 & H1 & H2).
        unfold h1 in H1. rewrite list_lookup_alter in H1.
        destruct (lookup_lt_is_Some_2 (heap st) i Hlt) as [rd0 H0].
        specialize (Hg i rd0 H0).
        assert (sched_view rd1 = (startTime rd0, freezeTime rd0, resultTime rd0, winningLine rd1)).
        { case_decide; [subst i|]; rewrite H0 in H1; cbn in H1;
            injection H1 as <-; reflexivity. }
        unfold sched_view in *. 
        assert (startTime rd' = startTime rd0 /\ freezeTime rd' = freezeTime rd0
                /\ resultTime rd' = resultTime rd0)
          by (split; [|split]; congruence).
        lia.
    + intros r'. rewrite E4, winning_view, E1.
      unfold draws_of. rewrite omap_app. cbn.
      fold (draws_of (fired st) r'). rewrite (I6 r').
      destruct (Nat.eqb_spec (currentRound st) r') as [<-|Hne].
      * rewrite Hrd. cbn. rewrite (I4 rd Hrd).
        rewrite lookup_app_l by (rewrite length_fmap; lia).
        rewrite <- winning_view. unfold h1.
        rewrite list_lookup_alter_eq, Hrd. reflexivity.
      * rewrite app_nil_r.
        destruct (decide (r' < length (heap st))%nat) as [Hlt|Hge].
        -- rewrite lookup_app_l by (rewrite length_fmap; lia).
           rewrite <- winning_view. unfold h1.
           rewrite list_lookup_alter_ne by exact Hne. reflexivity.
        -- rewrite (proj2 (lookup_ge_None (heap st) r')) by lia. cbn.
           rewrite lookup_app_r by (rewrite length_fmap; lia).
           rewrite length_fmap, Hlen1.
           destruct (r' - length (heap st))%nat as [|[|n]]; reflexivity.
Qed.

Lemma Inv_step st i : valid_input i -> Inv st -> Inv (step st i).
Proof.
  intros Hv HI. destruct i as [now m q| | | | |] eqn:Ei.
  - destruct Hv as [Hm Hq]. apply Inv_fireTimer; assumption.
  - destruct (socket_step_skel st (OnAuthenticate sid tok) I) as (A & B & C & D).
    exact (Inv_frame _ _ A B C D HI).
  - destruct (socket_step_skel st
                (OnJoinGame sid serverTime atFreezeIn atResultIn atOpen) I)
      as (A & B & C & D).
    exact (Inv_frame _ _ A B C D HI).
  - destruct (socket_step_skel st (OnPlaceBet sid data) I) as (A & B & C & D).
    exact (Inv_frame _ _ A B C D HI).
  - destruct (socket_step_skel st (OnSubmitFinalBets sid payload) I)
      as (A & B & C & D).
    exact (Inv_frame _ _ A B C D HI).
  - destruct (socket_step_skel st (OnDisconnect sid) I) as (A & B & C & D).
    exact (Inv_frame _ _ A B C D HI).
Qed.

Lemma reachable_Inv st : reachable st -> Inv st.
Proof.
  induction 1 as [d t0 now H0 Hle|st i Hr IH Hv].
  - apply Inv_bootstrap; assumption.
  - apply Inv_step; assumption.
Qed.

(** What one run of the event loop's timer phase does, read off the
    invariant: either the start or freeze callback of the current round, or
    its result callback followed by the rollover. *)
Lemma fireTimer_spec st now m q :
  Inv st ->
  let cur := currentRound st in
  let st' := fireTimer st now m q in
  (phase_of st cur = OPEN /\
   sched_view <$> heap st' = sched_view <$> heap st /\
   currentRound st' = cur /\
   exists t, timerQueue st = t :: timerQueue st' /\
             t_round t = cur /\ t_kind t <> KResult /\
             fired st' = fired st ++ [mkFired (t_kind t) cur cur OPEN None])
  \/
  (phase_of st cur = FROZEN /\
   (exists t, timerQueue st = [t] /\ timer_slot t = (cur, KResult)) /\
   exists rd, heap st !! cur = Some rd /\
     sched_view <$> heap st'
     = (sched_view <$>
          alter (fun rd => with_winningLine rd (Some (draw_line m q))) cur (heap st))
         ++ [(startTime rd + ROUND_DURATION_MS,
              startTime rd + ROUND_DURATION_MS + FREEZE_OFFSET_MS,
              startTime rd + ROUND_DURATION_MS + RESULT_OFFSET_MS, None)] /\
     currentRound st' = S cur /\
     map timer_slot (timerQueue st') = slots (S cur) /\
     fired st' = fired st ++ [mkFired KResult cur cur FROZEN (Some (draw_line m q))]).
Proof.
  intros [I1 (k & Hk & Hqs & Hfs) I3 I4 (s0 & Hs0 & Hg) I6]. cbv zeta.
  destruct (lookup_lt_is_Some_2 (heap st) (currentRound st) ltac:(lia)) as [rd Hrd].
  destruct (timerQueue st) as [|t rest] eqn:Eq.
  { destruct k as [|[|[|k]]]; cbn in Hqs; discriminate || lia. }
  destruct k as [|[|[|k]]]; [ | | |lia]; cbn in Hqs;
    destruct t as [id due kd r]; injection Hqs as -> -> Hrest.
  - left.
    destruct rest as [|[id2 due2 k2 r2] rest']; [discriminate|].
    cbn in Hrest. injection Hrest as -> -> Hrest.
    assert (Hph : phase_of st (currentRound st) = OPEN).
    { unfold phase_of, pending. rewrite Eq. cbn. now rewrite Nat.eqb_refl. }
    unfold fireTimer. rewrite Eq. cbn [t_kind t_round]. rewrite Hph.
    match goal with |- context [emitStartRound ?s _ _] =>
      destruct (emitStartRound_skel s (currentRound st) now) as (E1 & E2 & E3 & E4) end.
    cbn [record_fired set_queue heap currentRound timerQueue fired] in *.
    repeat split; try assumption.
    eexists. rewrite E3, E4. repeat split. discriminate.
  - left.
    assert (Hph : phase_of st (currentRound st) = OPEN).
    { unfold phase_of, pending. rewrite Eq. cbn. now rewrite Nat.eqb_refl. }
    unfold fireTimer. rewrite Eq. cbn [t_kind t_round]. rewrite Hph.
    match goal with |- context [emitFreezeBets ?s _ _] =>
      destruct (emitFreezeBets_skel s (currentRound st) now) as (E1 & E2 & E3 & E4) end.
    cbn [record_fired set_queue heap currentRound timerQueue fired] in *.
    repeat split; try assumption; [now rewrite E1|].
    eexists. rewrite E3, E4. repeat split. discriminate.
  - right.
    destruct rest; [|discriminate]. clear Hrest.
    assert (Hph : phase_of st (currentRound st) = FROZEN).
    { unfold phase_of, pending. rewrite Eq. cbn. now rewrite Nat.eqb_refl. }
    destruct (Hg _ _ Hrd) as (G1 & G2 & G3).
    unfold fireTimer. rewrite Eq. cbn [t_kind t_round]. rewrite Hph.
    match goal with |- context [emitRoundResultAndProcess ?s _ _ _ _] =>
      destruct (emitRoundResultAndProcess_skel s (currentRound st) rd now m q)
        as (E1 & E2 & E3 & E4) end;
      [exact Hrd|reflexivity|unfold ROUND_DURATION_MS in *; lia|].
    cbn [record_fired set_queue heap currentRound timerQueue fired] in *.
    split; [reflexivity|]. split; [eexists; split; reflexivity|].
    exists rd. rewrite <- I1 in *. repeat split; assumption.
Qed.

Lemma broadcasts_emit_to st sid msg :
  broadcasts (emit st (ToSocket sid) msg) = broadcasts st.
Proof.
  unfold broadcasts, emit; cbn. rewrite omap_app. cbn. apply app_nil_r.
Qed.

Lemma notifyPayee_quiet ss u fresh mk :
  omap broadcast_of (notifyPayee ss u fresh mk).2 = [].
Proof.
  induction ss as [|[sId session] rest IH]; cbn; [reflexivity|].
  destruct (s_userId session =? u); cbn; [reflexivity|].
  destruct (notifyPayee rest u fresh mk) as [rest' out]. exact IH.
Qed.

Lemma settleSnapshot_quiet w p rs now acc e :
  omap broadcast_of (settleSnapshot w p rs now acc e).2
  = omap broadcast_of acc.2.
Proof.
  unfold settleSnapshot. destruct acc as [[d ss] out]. cbn.
  destruct (snap_userId e.2 =? 0); [reflexivity|].
  match goal with |- context [notifyPayee ?a ?b ?c ?f] =>
    pose proof (notifyPayee_quiet a b c f) as Hq;
    destruct (notifyPayee a b c f) as [ss' msgs] end.
  cbn in *. rewrite omap_app, Hq. apply app_nil_r.
Qed.

Lemma settleAll_quiet w p rs now entries acc :
  omap broadcast_of (settleAll w p rs now entries acc).2
  = omap broadcast_of acc.2.
Proof.
  unfold settleAll. revert acc.
  induction entries as [|e es IH]; intros acc; cbn; [reflexivity|].
  rewrite IH. apply settleSnapshot_quiet.
Qed.

Lemma socket_step_broadcasts st i :
  match i with TimerFires _ _ _ => False | _ => True end ->
  broadcasts (step st i) = broadcasts st.
Proof.
  destruct i as [now m q|sid tok|sid now|sid data|sid payload|sid];
    intros Hi; [destruct Hi| | | | |]; cbn.
  - unfold authenticate. destruct tok; [| |destruct (users (db st) !! userId)];
      rewrite broadcasts_emit_to; reflexivity.
  - unfold join_game. destruct (heap st !! currentRound st);
      [apply broadcasts_emit_to|reflexivity].
  - unfold place_bet. destruct (heap st !! currentRound st);
      rewrite broadcasts_emit_to; reflexivity.
  - unfold submit_final_bets.
    repeat case_match; rewrite broadcasts_emit_to; reflexivity.
  - reflexivity.
Qed.

Lemma scheduleRoundTimers_outbox st r now :
  outbox (scheduleRoundTimers st r now) = outbox st.
Proof. unfold scheduleRoundTimers. destruct (heap st !! r); reflexivity. Qed.

Lemma rollover_outbox st r now : outbox (rollover st r now) = outbox st.
Proof.
  unfold rollover. destruct (heap st !! r) as [rd|]; [|reflexivity].
  rewrite scheduleRoundTimers_outbox. cbn.
  unfold clearRoundTimers. destruct (heap st !! r); reflexivity.
Qed.

Lemma persistRoundStart_outbox st r : outbox (persistRoundStart st r) = outbox st.
Proof.
  unfold persistRoundStart. destruct (heap st !! r); reflexivity.
Qed.

Lemma persistRoundResult_outbox st r : outbox (persistRoundResult st r) = outbox st.
Proof.
  unfold persistRoundResult. destruct (heap st !! r) as [rd|]; [|reflexivity].
  destruct (persistedRoundId rd) as [id|]; [destruct (id =? 0)|]; reflexivity.
Qed.

(** The broadcast of one timer callback. *)
Lemma fireTimer_broadcasts st now m q t rest rd :
  timerQueue st = t :: rest ->
  heap st !! t_round t = Some rd ->
  broadcasts (fireTimer st now m q)
  = broadcasts st
      ++ [(t_kind t, match t_kind t with
                     | KResult => Some (draw_line m q)
                     | _ => Some (startTime rd)
                     end)].
Proof.
  intros Eq Hrd. unfold fireTimer. rewrite Eq.
  destruct t as [id due kd r]. cbn [t_kind t_round] in *. destruct kd.
  - unfold emitStartRound. cbn [record_fired set_queue heap]. rewrite Hrd.
    unfold broadcasts, emit. cbn [outbox]. rewrite persistRoundStart_outbox.
    cbn [outbox]. rewrite omap_app. reflexivity.
  - unfold emitFreezeBets. cbn [record_fired set_queue heap]. rewrite Hrd.
    unfold broadcasts, emit. cbn [outbox]. rewrite omap_app. reflexivity.
  - unfold emitRoundResultAndProcess, broadcasts. rewrite rollover_outbox.
    set (h1 := alter _ r _).
    match goal with |- context [persistRoundResult ?s r] => set (st1 := s) end.
    assert (Hl1 : heap st1 !! r = Some (with_winningLine rd (Some (draw_line m q)))).
    { unfold st1, h1; cbn. rewrite list_lookup_alter_eq, Hrd. reflexivity. }
    destruct (persistRoundResult_skel st1 r) as (P1 & _).
    pose proof (persistRoundResult_outbox st1 r) as Ho.
    set (st2 := persistRoundResult st1 r) in *.
    destruct (view_lookup_rev _ _ _ _ P1 Hl1) as (rd2 & Hl2 & Hv2).
    rewrite Hl2.
    match goal with |- context [settleAll ?a ?b ?c ?d ?e ?f] =>
      pose proof (settleAll_quiet a b c d e f) as Hs;
      destruct (settleAll a b c d e f) as [[d' ss'] out'] end.
    cbn in Hs. cbn [emit outbox]. rewrite omap_app, Hs, Ho. cbn.
    unfold sched_view in Hv2. cbn in Hv2.
    replace (winningLine rd2) with (Some (draw_line m q)) by congruence.
    reflexivity.
Qed.

Lemma startTime_view (h : list Round) r :
  startTime <$> h !! r = (fun v => v.1.1.1) <$> (sched_view <$> h) !! r.
Proof. rewrite list_lookup_fmap. destruct (h !! r); reflexivity. Qed.

Lemma schedule_round n x : x ∈ schedule n -> (x.1 < n)%nat.
Proof.
  unfold schedule. rewrite list_elem_of_In, in_flat_map.
  intros (r & Hr & Hx). apply in_seq in Hr.
  cbn in Hx. destruct Hx as [<-|[<-|[<-|[]]]]; cbn; lia.
Qed.

Lemma slots_round n k x : x ∈ take k (slots n) -> x.1 = n.
Proof.
  intros Hx. apply (subseteq_take k) in Hx.
  unfold slots in Hx. rewrite !elem_of_cons in Hx.
  destruct Hx as [->|[->|[->|Hx]]]; try reflexivity.
  now apply elem_of_nil in Hx.
Qed.

Lemma fired_round st f :
  Inv st -> f ∈ fired st -> (f_round f < length (heap st))%nat.
Proof.
  intros [I1 (k & Hk & Hqs & Hfs) _ _ _ _] Hf.
  assert (Hs : fired_slot f ∈ map fired_slot (fired st)).
  { apply list_elem_of_In, in_map, list_elem_of_In, Hf. }
  rewrite Hfs, elem_of_app in Hs. destruct Hs as [Hs|Hs].
  - apply schedule_round in Hs. cbn in Hs. lia.
  - apply slots_round in Hs. cbn in Hs. lia.
Qed.

Lemma schedule_NoDup n : NoDup (schedule n).
Proof.
  induction n as [|n IH]; [constructor|].
  rewrite schedule_S. apply NoDup_app. split; [exact IH|]. split.
  - intros x Hx Hs. apply schedule_round in Hx.
    apply (slots_round n 3) in Hs. lia.
  - unfold slots. repeat constructor; rewrite ?elem_of_cons, ?elem_of_nil;
      intros H; repeat destruct H as [H|H]; try discriminate; exact H.
Qed.

Lemma fired_slots_NoDup st : Inv st -> NoDup (map fired_slot (fired st)).
Proof.
  intros [I1 (k & Hk & Hqs & Hfs) _ _ _ _]. rewrite Hfs.
  pose proof (schedule_NoDup (S (currentRound st))) as Hn.
  rewrite schedule_S in Hn. apply NoDup_app in Hn as (H1 & H2 & H3).
  apply NoDup_app. split; [exact H1|]. split.
  - intros x Hx Hs. apply (H2 x Hx). eapply subseteq_take, Hs.
  - eapply sublist_NoDup; [exact H3|apply sublist_take].
Qed.

Lemma queue_targets_current st t :
  Inv st -> t ∈ timerQueue st -> t_round t = currentRound st.
Proof.
  intros [I1 (k & Hk & Hqs & Hfs) _ _ _ _] Ht.
  assert (Hs : timer_slot t ∈ map timer_slot (timerQueue st)).
  { apply list_elem_of_In, in_map, list_elem_of_In, Ht. }
  rewrite Hqs in Hs. apply subseteq_drop in Hs.
  apply (slots_round _ 3) in Hs. exact Hs.
Qed.

Lemma fireTimer_startTime st now m q r :
  Inv st -> (r < length (heap st))%nat ->
  startTime <$> heap (fireTimer st now m q) !! r = startTime <$> heap st !! r.
Proof.
  intros HI Hr. rewrite !startTime_view.
  destruct (fireTimer_spec st now m q HI)
    as [(_ & E & _)|(_ & _ & rd & Hrd & E & _)]; rewrite E; [reflexivity|].
  rewrite lookup_app_l by (rewrite length_fmap, length_alter; exact Hr).
  rewrite <- !startTime_view, list_lookup_alter.
  case_decide; [subst r|reflexivity]. destruct (heap st !! _); reflexivity.
Qed.

Lemma expected_ext (h h' : list Round) fs :
  (forall f, f ∈ fs ->
     startTime <$> h' !! f_round f = startTime <$> h !! f_round f) ->
  map (expected h') fs = map (expected h) fs.
Proof.
  intros He. apply map_ext_in. intros f Hf. unfold expected.
  rewrite He by (apply list_elem_of_In, Hf). reflexivity.
Qed.

Lemma reachable_broadcasts st :
  reachable st -> broadcasts st = map (expected (heap st)) (fired st).
Proof.
  induction 1 as [d t0 now H0 Hle|st i Hr IH Hv].
  - unfold bootstrap, broadcasts. rewrite scheduleRoundTimers_outbox.
    unfold scheduleRoundTimers. cbn [heap]. now destruct (_ !! _).
  - pose proof (reachable_Inv st Hr) as HI.
    destruct i as [now m q| | | | |] eqn:Ei.
    2-6: destruct (socket_step_skel st i ltac:(now rewrite Ei)) as (A & B & C & D);
      rewrite Ei in *; rewrite socket_step_broadcasts, D, IH by exact I;
      symmetry; apply expected_ext; intros f _;
      now rewrite !startTime_view, A.
    cbn [step].
    assert (Hold : map (expected (heap (fireTimer st now m q))) (fired st)
                   = map (expected (heap st)) (fired st)).
    { apply expected_ext. intros f Hf. apply fireTimer_startTime; [exact HI|].
      eapply fired_round; eassumption. }
    destruct (fireTimer_spec st now m q HI)
      as [(_ & Ev & Ec & t & Eq & Et & Ek & Ef)
         |(_ & (t & Eq & Et) & rd & Hrd & Ev & Ec & _ & Ef)].
    + destruct (lookup_lt_is_Some_2 (heap st) (currentRound st)) as [rd Hrd];
        [rewrite <- (inv_cur st HI); lia|].
      rewrite (fireTimer_broadcasts st now m q t _ rd Eq) by (rewrite Et; exact Hrd).
      rewrite Ef, map_app, Hold, IH. f_equal. cbn. unfold expected. cbn.
      rewrite fireTimer_startTime, Hrd
        by (try exact HI; rewrite <- (inv_cur st HI); lia).
      destruct (t_kind t); try reflexivity. congruence.
    + injection Et as Et1 Et2.
      rewrite (fireTimer_broadcasts st now m q t _ rd Eq) by (rewrite Et1; exact Hrd).
      rewrite Ef, map_app, Hold, IH, Et2. reflexivity.
Qed.

Lemma phase_of_completed st r :
  Inv st -> r <> currentRound st -> phase_of st r = RESULTED.
Proof.
  intros HI Hr. unfold phase_of, pending.
  assert (Hno : forall k,
             existsb (fun t => bool_decide (t_kind t = k) && (t_round t =? r)%nat)
                     (timerQueue st) = false).
  { intros k. apply not_true_is_false. intros Hex.
    apply existsb_exists in Hex as (t & Ht & Hb).
    apply andb_true_iff in Hb as [_ Hb]. apply Nat.eqb_eq in Hb.
    apply list_elem_of_In in Ht.
    rewrite (queue_targets_current st t HI Ht) in Hb. congruence. }
  now rewrite !Hno.
Qed.

Lemma phase_of_current st :
  Inv st -> phase_of st (currentRound st) <> RESULTED.
Proof.
  intros [I1 (k & Hk & Hqs & Hfs) _ _ _ _].
  assert (Hs : (currentRound st, KResult) ∈ map timer_slot (timerQueue st)).
  { rewrite Hqs. destruct k as [|[|[|k]]]; [| | |lia]; cbn;
      rewrite !elem_of_cons; tauto. }
  apply list_elem_of_In, in_map_iff in Hs as (t & Ht & Hin).
  assert (Hp : pending st KResult (currentRound st) = true).
  { unfold pending. apply existsb_exists. exists t. split; [exact Hin|].
    unfold timer_slot in Ht. injection Ht as -> ->.
    rewrite Nat.eqb_refl. reflexivity. }
  unfold phase_of. rewrite Hp. destruct (pending st KFreeze _); discriminate.
Qed.

Lemma completed_has_winner st r :
  Inv st -> (r < currentRound st)%nat ->
  exists w, winningLine <$> heap st !! r = Some (Some w) /\ 1 <= w <= 5.
Proof.
  intros HI Hr. pose proof HI as [I1 (k & Hk & Hqs & Hfs) I3 _ _ _].
  assert (Hs : (r, KResult) ∈ map fired_slot (fired st)).
  { rewrite Hfs. apply elem_of_app. left. unfold schedule.
    apply list_elem_of_In, in_flat_map. exists r. split.
    - apply in_seq. lia.
    - cbn. tauto. }
  apply list_elem_of_In, in_map_iff in Hs as (f & Hf & Hin).
  rewrite Forall_forall in I3. specialize (I3 f (proj2 (list_elem_of_In _ _) Hin)).
  destruct I3 as [_ Hk']. unfold fired_slot in Hf. injection Hf as Hfr Hfk.
  rewrite Hfk, Hfr in Hk'. destruct Hk' as [_ (w & _ & Hw & Hl)]. eauto.
Qed.

(** C5.  In every reachable state, a round whose result callback has run
    (phase RESULTED) carries a winning line in 1..5 that was assigned exactly
    once; a round not yet RESULTED has none; an assignment recorded for the
    round was made by its result callback, entered from phase FROZEN; and a
    step changes a round's winningLine only as the FROZEN -> RESULTED
    transition, from unset to a value in 1..5. *)
Theorem winningLine_set_once st r :
  reachable st -> (r < length (heap st))%nat ->
  (phase_of st r = RESULTED ->
     exists w, winningLine <$> heap st !! r = Some (Some w) /\ 1 <= w <= 5 /\
               draws_of (fired st) r = [w]) /\
  (phase_of st r <> RESULTED ->
     winningLine <$> heap st !! r = Some None /\ draws_of (fired st) r = []) /\
  (forall f, f ∈ fired st -> f_round f = r -> f_draw f <> None ->
     f_kind f = KResult /\ f_phase f = FROZEN) /\
  (forall i, valid_input i ->
     winningLine <$> heap (step st i) !! r <> winningLine <$> heap st !! r ->
     phase_of st r = FROZEN /\ phase_of (step st i) r = RESULTED /\
     winningLine <$> heap st !! r = Some None /\
     exists w, 1 <= w <= 5 /\
               winningLine <$> heap (step st i) !! r = Some (Some w)).
Proof.
  intros Hreach Hr. pose proof (reachable_Inv st Hreach) as HI.
  pose proof HI as [I1 _ I3 I4 _ I6].
  destruct (lookup_lt_is_Some_2 (heap st) r Hr) as [rd Hrd].
  split; [|split; [|split]].
  - intros Hp. destruct (decide (r = currentRound st)) as [->|Hne].
    { now apply phase_of_current in Hp. }
    destruct (completed_has_winner st r HI ltac:(lia)) as (w & Hw & Hrange).
    exists w. repeat split; try tauto. rewrite I6, Hw. reflexivity.
  - intros Hp. destruct (decide (r = currentRound st)) as [->|Hne].
    + rewrite I6, Hrd. cbn. now rewrite (I4 rd Hrd).
    + now rewrite (phase_of_completed st r HI Hne) in Hp.
  - intros f Hf _ Hd. rewrite Forall_forall in I3. destruct (I3 f Hf) as [_ Hk].
    destruct (f_kind f); destruct Hk; try congruence. tauto.
  - intros i Hv Hch.
    pose proof (reachable_Inv _ (reach_step st i Hreach Hv)) as HI'.
    destruct i as [now m q| | | | |] eqn:Ei.
    2-6: destruct (socket_step_skel st i ltac:(now rewrite Ei)) as (A & _);
      rewrite Ei in A; cbv zeta in A;
      rewrite !winning_view, A in Hch; congruence.
    cbn [step] in *. destruct Hv as [Hm Hq].
    destruct (fireTimer_spec st now m q HI)
      as [(_ & Ev & _)|(Hph & _ & rd0 & Hrd0 & Ev & Ec & _)].
    { rewrite !winning_view, Ev in Hch. congruence. }
    assert (Hnew : winningLine <$> heap (fireTimer st now m q) !! r
                   = winningLine <$>
                       alter (fun rd => with_winningLine rd (Some (draw_line m q)))
                             (currentRound st) (heap st) !! r).
    { rewrite winning_view, Ev, lookup_app_l, <- winning_view
        by (rewrite length_fmap, length_alter; exact Hr). reflexivity. }
    destruct (decide (currentRound st = r)) as [<-|Hne];
      [|rewrite Hnew, list_lookup_alter_ne in Hch by exact Hne; congruence].
    assert (Hold : winningLine <$> heap st !! currentRound st = Some None).
    { rewrite Hrd. cbn. now rewrite (I4 rd Hrd). }
    rewrite list_lookup_alter_eq, Hrd in Hnew.
    repeat split.
    + exact Hph.
    + apply phase_of_completed; [exact HI'|]. rewrite Ec. lia.
    + exact Hold.
    + exists (draw_line m q). split; [apply draw_line_range; assumption|].
      exact Hnew.
Qed.

(** X29.  The timer engine keeps the grid: in every reachable state
    consecutive rounds start exactly ROUND_DURATION_MS apart, and the step
    that completes the current round makes its successor current with
    startTime + ROUND_DURATION_MS, whatever instant [now] the callback runs
    at. *)
Theorem successor_start_is_start_plus_duration st :
  reachable st ->
  (forall r s, startTime <$> heap st !! r = Some s ->
               (S r < length (heap st))%nat ->
               startTime <$> heap st !! S r = Some (s + ROUND_DURATION_MS)) /\
  (forall now m q,
     phase_of st (currentRound st) = FROZEN ->
     let st' := step st (TimerFires now m q) in
     currentRound st' = S (currentRound st) /\
     exists s, startTime <$> heap st !! currentRound st = Some s /\
               startTime <$> heap st' !! currentRound st'
               = Some (s + ROUND_DURATION_MS)).
Proof.
  intros Hreach. pose proof (reachable_Inv st Hreach) as HI.
  pose proof HI as [I1 _ _ _ (s0 & Hs0 & Hg) _].
  split.
  - intros r s Hs Hlt.
    destruct (heap st !! r) as [rd|] eqn:Hrd; [|discriminate].
    destruct (lookup_lt_is_Some_2 (heap st) (S r) Hlt) as [rd' Hrd'].
    rewrite Hrd'. cbn in *. injection Hs as <-.
    destruct (Hg _ _ Hrd) as (G & _). destruct (Hg _ _ Hrd') as (G' & _).
    f_equal. unfold ROUND_DURATION_MS in *. lia.
  - intros now m q Hph. cbn [step]. cbv zeta.
    destruct (fireTimer_spec st now m q HI)
      as [(Hopen & _)|(_ & _ & rd & Hrd & Ev & Ec & _)]; [congruence|].
    split; [exact Ec|]. exists (startTime rd). rewrite Hrd. split; [reflexivity|].
    rewrite Ec, I1, startTime_view, Ev.
    rewrite lookup_app_r by (rewrite length_fmap, length_alter; lia).
    rewrite length_fmap, length_alter, Nat.sub_diag. reflexivity.
Qed.

(** C8.  In every reachable state all pending timers target the current
    round, so no transition runs for a superseded round: every callback that
    ran did so for the round current at that moment, no slot of the timetable
    ran twice, the broadcasts are exactly one per callback run (start_round
    and freeze_bets carrying that round's id, round_result its winning line),
    and no round had its winning line drawn more than once. *)
Theorem no_transition_for_superseded_round st :
  reachable st ->
  (forall t, t ∈ timerQueue st -> t_round t = currentRound st) /\
  (forall f, f ∈ fired st -> f_current f = f_round f) /\
  NoDup (map fired_slot (fired st)) /\
  broadcasts st = map (expected (heap st)) (fired st) /\
  (forall r, (length (draws_of (fired st) r) <= 1)%nat).
Proof.
  intros Hreach. pose proof (reachable_Inv st Hreach) as HI.
  split; [|split; [|split; [|split]]].
  - intros t. apply queue_targets_current, HI.
  - intros f Hf. pose proof (inv_fired st HI) as I3.
    rewrite Forall_forall in I3. now destruct (I3 f Hf).
  - apply fired_slots_NoDup, HI.
  - apply reachable_broadcasts, Hreach.
  - intros r. rewrite (inv_draws st HI).
    destruct (winningLine <$> heap st !! r) as [[w|]|]; cbn; lia.
Qed.

Lemma jm_get_set_eq {V} (m : JsMap V) k v : jm_get (jm_set m k v) k = Some v.
Proof.
  induction m as [|[k' v'] m IH]; cbn.
  - now rewrite decide_True.
  - destruct (decide (k' = k)) as [->|Hne]; cbn.
    + now rewrite decide_True.
    + now rewrite decide_False.
Qed.

Lemma jm_get_set_ne {V} (m : JsMap V) k k' v :
  k <> k' -> jm_get (jm_set m k v) k' = jm_get m k'.
Proof.
  intros Hne. induction m as [|[k0 v0] m IH]; cbn.
  - now rewrite decide_False.
  - destruct (decide (k0 = k)) as [->|Hne0]; cbn.
    + now rewrite !decide_False.
    + destruct (decide (k0 = k')); [reflexivity|exact IH].
Qed.

(** C2.  A finalize submission by an authenticated socket for the current
    round whose total exceeds the user's balance is answered with
    bet_error "Insufficient balance" and changes nothing: the store (balance,
    ledger, player_bets), the rounds (so no snapshot) and the sessions stay
    as they were. *)
Theorem insufficient_balance_rejected st sid payload session cur balance :
  jm_get (userSessions st) sid = Some session ->
  s_userId session <> 0 ->
  heap st !! currentRound st = Some cur ->
  p_roundId payload = startTime cur ->
  select_balance (db st) (s_userId session) = Some balance ->
  balance < totalAmountOf payload ->
  let st' := submit_final_bets st sid payload in
  outbox st' = outbox st ++ [(ToSocket sid, bet_error "Insufficient balance")] /\
  db st' = db st /\
  heap st' = heap st /\
  userSessions st' = userSessions st.
Proof.
  intros Hs Hu Hc Hr Hb Hlt. unfold submit_final_bets.
  rewrite Hs, Hc, Hb.
  destruct (Z.eqb_spec (s_userId session) 0) as [|_]; [contradiction|].
  destruct (Z.eqb_spec (p_roundId payload) (startTime cur)) as [_|]; [|contradiction].
  destruct (Z.ltb_spec balance (totalAmountOf payload)) as [_|]; [|lia].
  cbn. tauto.
Qed.

Lemma round_mismatch_rejected st sid payload session cur :
  jm_get (userSessions st) sid = Some session ->
  s_userId session <> 0 ->
  heap st !! currentRound st = Some cur ->
  p_roundId payload <> startTime cur ->
  submit_final_bets st sid payload
  = emit st (ToSocket sid) (bet_error "Round mismatch").
Proof.
  intros Hs Hu Hc Hr. unfold submit_final_bets. rewrite Hs, Hc.
  destruct (Z.eqb_spec (s_userId session) 0) as [|_]; [contradiction|].
  destruct (Z.eqb_spec (p_roundId payload) (startTime cur)) as [|_]; [contradiction|].
  reflexivity.
Qed.

Lemma select_update_balance d u v delta :
  select_balance (update_balance d u delta) v
  = if decide (u = v) then (fun b => b + delta) <$> select_balance d v
    else select_balance d v.
Proof.
  unfold select_balance, update_balance; cbn.
  rewrite lookup_alter. case_decide; [subst|reflexivity].
  destruct (users d !! v); reflexivity.
Qed.

Lemma recordBet_users u rs p d e : users (recordBet u rs p d e) = users d.
Proof. unfold recordBet. destruct (_ <=? _); reflexivity. Qed.

Lemma recordBets_users u rs p es d :
  users (fold_left (recordBet u rs p) es d) = users d.
Proof.
  revert d. induction es as [|e es IH]; intros d; cbn; [reflexivity|].
  rewrite IH. apply recordBet_users.
Qed.

(** An accepted finalize debits the declared total and stores the snapshot. *)
Lemma submit_accepted st sid payload session cur balance :
  jm_get (userSessions st) sid = Some session ->
  s_userId session <> 0 ->
  heap st !! currentRound st = Some cur ->
  p_roundId payload = startTime cur ->
  select_balance (db st) (s_userId session) = Some balance ->
  totalAmountOf payload <= balance ->
  let st' := submit_final_bets st sid payload in
  outbox st' = outbox st
      ++ [(ToSocket sid, bet_accepted (balance - totalAmountOf payload))] /\
  select_balance (db st') (s_userId session)
  = Some (balance - totalAmountOf payload) /\
  (finalBets <$> heap st' !! currentRound st')
  = Some (jm_set (finalBets cur) sid
            (mkSnapshot (s_userId session) (payloadBets payload)
                        (totalAmountOf payload))).
Proof.
  intros Hs Hu Hc Hr Hb Hle. unfold submit_final_bets.
  rewrite Hs, Hc, Hb.
  destruct (Z.eqb_spec (s_userId session) 0) as [|_]; [contradiction|].
  destruct (Z.eqb_spec (p_roundId payload) (startTime cur)) as [_|]; [|contradiction].
  destruct (Z.ltb_spec balance (totalAmountOf payload)) as [|_]; [lia|].
  cbn. repeat split.
  - unfold select_balance. rewrite recordBets_users.
    fold (select_balance (update_balance (db st) (s_userId session)
                                         (- totalAmountOf payload))
                         (s_userId session)).
    rewrite select_update_balance, decide_True, Hb by reflexivity.
    reflexivity.
  - rewrite list_lookup_alter_eq, Hc. reflexivity.
Qed.

Lemma submit_accepted_state st sid payload session cur balance :
  jm_get (userSessions st) sid = Some session ->
  s_userId session <> 0 ->
  heap st !! currentRound st = Some cur ->
  p_roundId payload = startTime cur ->
  select_balance (db st) (s_userId session) = Some balance ->
  totalAmountOf payload <= balance ->
  submit_final_bets st sid payload
  = emit (mkState
            (alter (fun rd =>
                      with_finalBets rd
                        (jm_set (finalBets rd) sid
                           (mkSnapshot (s_userId session) (payloadBets payload)
                                       (totalAmountOf payload))))
                   (currentRound st) (heap st))
            (currentRound st)
            (jm_set (userSessions st) sid
               (mkSession (s_userId session) (s_username session)
                          (balance - totalAmountOf payload)))
            (fold_left (recordBet (s_userId session) (startTime cur)
                                  (persistedRoundId cur))
                       (payloadBets payload)
                       (update_balance (db st) (s_userId session)
                                       (- totalAmountOf payload)))
            (timerQueue st) (nextTimerId st) (outbox st) (fired st))
         (ToSocket sid) (bet_accepted (balance - totalAmountOf payload)).
Proof.
  intros Hs Hu Hc Hr Hb Hle. unfold submit_final_bets.
  rewrite Hs, Hc, Hb.
  destruct (Z.eqb_spec (s_userId session) 0) as [|_]; [contradiction|].
  destruct (Z.eqb_spec (p_roundId payload) (startTime cur)) as [_|]; [|contradiction].
  destruct (Z.ltb_spec balance (totalAmountOf payload)) as [|_]; [lia|].
  reflexivity.
Qed.

Lemma notifyPayee_first ss u fresh mk pre sid sess post :
  ss = pre ++ (sid, sess) :: post ->
  Forall (fun e => s_userId e.2 <> u) pre ->
  s_userId sess = u ->
  notifyPayee ss u fresh mk
  = (pre ++ (sid, mkSession (s_userId sess) (s_username sess)
                            (default (s_balance sess) fresh)) :: post,
     [(ToSocket sid, mk (default (s_balance sess) fresh))]).
Proof.
  intros -> Hpre Hu. induction Hpre as [|[k s] pre Hk Hpre IH]; cbn.
  - rewrite Hu, Z.eqb_refl. destruct fresh; reflexivity.
  - cbn in Hk. destruct (Z.eqb_spec (s_userId s) u); [contradiction|].
    rewrite IH. reflexivity.
Qed.

Lemma notifyPayee_none ss u fresh mk :
  Forall (fun e => s_userId e.2 <> u) ss ->
  notifyPayee ss u fresh mk = (ss, []).
Proof.
  induction 1 as [|[k s] ss Hk Hss IH]; cbn; [reflexivity|].
  cbn in Hk. destruct (Z.eqb_spec (s_userId s) u); [contradiction|].
  rewrite IH. reflexivity.
Qed.


(** C9.  Settling one snapshot sends the targeted round_result to exactly
    one socket, the first session in iteration order whose userId is the
    snapshot's; only that session's cached balance is refreshed, and the
    sessions after it, also those of the same user, stay as they were. *)
Theorem targeted_result_reaches_first_session_only
        w p rs now d ss out key snap pre sid sess post :
  snap_userId snap <> 0 ->
  ss = pre ++ (sid, sess) :: post ->
  Forall (fun e => s_userId e.2 <> snap_userId snap) pre ->
  s_userId sess = snap_userId snap ->
  let d' := creditWin d (snap_userId snap) (winAmountOf snap w) w p in
  let newBalance :=
    default (s_balance sess) (select_balance d' (snap_userId snap)) in
  settleSnapshot w p rs now (d, ss, out) (key, snap)
  = (d',
     pre ++ (sid, mkSession (s_userId sess) (s_username sess) newBalance) :: post,
     out ++ [(ToSocket sid,
              round_result_to (or_else p rs) w (winAmountOf snap w)
                              newBalance now)]).
Proof.
  intros Hu Hss Hpre Hs. cbv zeta. unfold settleSnapshot. cbn [snd].
  destruct (Z.eqb_spec (snap_userId snap) 0) as [|_]; [contradiction|].
  erewrite notifyPayee_first by eassumption. reflexivity.
Qed.

Lemma creditWin_effect d u a w p :
  (0 < a ->
     transactions (creditWin d u a w p)
     = transactions d ++ [mkTransaction u a TxWin (DescWin (or_zero w) p)] /\
     forall v, select_balance (creditWin d u a w p) v
               = if decide (u = v) then (fun b => b + a) <$> select_balance d v
                 else select_balance d v) /\
  (a <= 0 -> creditWin d u a w p = d).
Proof.
  unfold creditWin. split; intros Ha.
  - destruct (Z.ltb_spec 0 a); [|lia]. split; [reflexivity|].
    intros v. apply select_update_balance.
  - destruct (Z.ltb_spec 0 a); [lia|reflexivity].
Qed.

Lemma settleSnapshot_db w p rs now acc key snap :
  snap_userId snap <> 0 ->
  (settleSnapshot w p rs now acc (key, snap)).1.1
  = creditWin acc.1.1 (snap_userId snap) (winAmountOf snap w) w p.
Proof.
  intros Hu. unfold settleSnapshot. destruct acc as [[d ss] out]. cbn [snd fst].
  destruct (Z.eqb_spec (snap_userId snap) 0) as [|_]; [contradiction|].
  destruct (notifyPayee _ _ _ _). reflexivity.
Qed.


Lemma scheduleRoundTimers_store st r now :
  db (scheduleRoundTimers st r now) = db st /\
  userSessions (scheduleRoundTimers st r now) = userSessions st.
Proof. unfold scheduleRoundTimers. destruct (heap st !! r); split; reflexivity. Qed.

Lemma rollover_store st r now :
  db (rollover st r now) = db st /\
  userSessions (rollover st r now) = userSessions st.
Proof.
  unfold rollover. destruct (heap st !! r) as [rd|]; [|split; reflexivity].
  match goal with |- context [scheduleRoundTimers ?s ?x now] =>
    destruct (scheduleRoundTimers_store s x now) as [-> ->] end.
  cbn. unfold clearRoundTimers. destruct (heap st !! r); split; reflexivity.
Qed.










Lemma insufficient_balance_rejected_witness :
  select_balance (db frozen_state) 7 = Some 1000 /\
  1000 < totalAmountOf greedy_payload /\
  outbox (submit_final_bets frozen_state "s1" greedy_payload)
  = outbox frozen_state ++ [(ToSocket "s1", bet_error "Insufficient balance")] /\
  db (submit_final_bets frozen_state "s1" greedy_payload) = db frozen_state /\
  heap (submit_final_bets frozen_state "s1" greedy_payload) = heap frozen_state /\
  userSessions (submit_final_bets frozen_state "s1" greedy_payload)
  = userSessions frozen_state.
Proof.
  assert (Hs : jm_get (userSessions frozen_state) "s1"
               = Some (mkSession 7 "ann" 1000)) by (vm_compute; reflexivity).
  assert (Hu : s_userId (mkSession 7 "ann" 1000) <> 0) by (cbn; lia).
  assert (Hc : heap frozen_state !! currentRound frozen_state = Some frozen_round)
    by (vm_compute; reflexivity).
  assert (Hr : p_roundId greedy_payload = startTime frozen_round)
    by (vm_compute; reflexivity).
  assert (Hb : select_balance (db frozen_state) (s_userId (mkSession 7 "ann" 1000))
               = Some 1000) by (vm_compute; reflexivity).
  assert (Hlt : 1000 < totalAmountOf greedy_payload) by (vm_compute; reflexivity).
  split; [exact Hb|]. split; [exact Hlt|].
  exact (insufficient_balance_rejected frozen_state "s1" greedy_payload
           (mkSession 7 "ann" 1000) frozen_round 1000 Hs Hu Hc Hr Hb Hlt).
Defined.

Lemma targeted_result_reaches_first_session_only_witness :
  settleSnapshot (Some 3) (Some 1) 1000 31000
                 (scenario_db 900, twin_sessions, []) ("s1", line3_snapshot)
  = (creditWin (scenario_db 900) 7 500 (Some 3) (Some 1),
     [("s1", mkSession 7 "ann" 1400); ("s2", mkSession 7 "ann" 900)],
     [(ToSocket "s1", round_result_to 1 (Some 3) 500 1400 31000)]).
Proof.
  assert (Hu : snap_userId line3_snapshot <> 0) by (cbn; lia).
  exact (targeted_result_reaches_first_session_only
           (Some 3) (Some 1) 1000 31000 (scenario_db 900) twin_sessions []
           "s1" line3_snapshot [] "s1" (mkSession 7 "ann" 900)
           [("s2", mkSession 7 "ann" 900)] Hu eq_refl (List.Forall_nil _) eq_refl).
Defined.

(** The demo run is a run of the engine. *)
Lemma demo_reachable : reachable demo_state.
Proof.
  unfold demo_state, demo_round, run. cbn [fold_left].
  repeat apply reach_step; try (cbn; lia).
  unfold demo_boot. apply reach_boot; lia.
Defined.

Lemma winningLine_set_once_witness :
  reachable demo_state /\
  (0 < length (heap demo_state))%nat /\
  exists w, winningLine <$> heap demo_state !! 0%nat = Some (Some w) /\
            1 <= w <= 5 /\ draws_of (fired demo_state) 0 = [w].
Proof.
  assert (Hl : (0 < length (heap demo_state))%nat) by (vm_compute; lia).
  split; [exact demo_reachable|]. split; [exact Hl|].
  apply (proj1 (winningLine_set_once demo_state 0 demo_reachable Hl)).
  vm_compute; reflexivity.
Defined.

Lemma successor_start_is_start_plus_duration_witness :
  reachable demo_state /\
  startTime <$> heap demo_state !! 1%nat = Some (1000 + ROUND_DURATION_MS).
Proof.
  split; [exact demo_reachable|].
  apply (proj1 (successor_start_is_start_plus_duration demo_state demo_reachable)
               0%nat 1000).
  - vm_compute; reflexivity.
  - vm_compute; lia.
Defined.

Lemma no_transition_for_superseded_round_witness :
  reachable demo_state /\
  broadcasts demo_state = map (expected (heap demo_state)) (fired demo_state).
Proof.
  split; [exact demo_reachable|].
  exact (proj1 (proj2 (proj2 (proj2
    (no_transition_for_superseded_round demo_state demo_reachable))))).
Defined.


(** C3, at the failing input.  After the freeze_bets broadcast of the
    current round (phase FROZEN) a place_bet is still applied to the round's
    wager store and acknowledged with success. *)
Theorem place_bet_after_freeze_is_applied :
  phase_of frozen_state (currentRound frozen_state) = FROZEN /\
  last (outbox frozen_state) = Some (Broadcast, freeze_bets 1000 26000) /\
  let st' := step frozen_state
                  (OnPlaceBet "s1" (Some (mkPlaceBetData "line2" (Some 40) "add"))) in
  last (outbox st')
  = Some (ToSocket "s1",
          place_bet_ack true
            [("line1", 0); ("line2", 40); ("line3", 0); ("line4", 0); ("line5", 0)]) /\
  bets <$> heap st' !! currentRound st'
  = Some [("s1", [("line1", 0); ("line2", 40); ("line3", 0); ("line4", 0);
                  ("line5", 0)])].
Proof.
  repeat split; vm_compute; reflexivity.
Qed.

(** C4, at the failing input.  A finalize sent while the round is OPEN is
    accepted, and so is a second one from the same socket: the user is
    debited twice, one snapshot is kept. *)
Theorem finalize_accepted_while_open_and_twice :
  phase_of open_state (currentRound open_state) = OPEN /\
  let st1 := step open_state (OnSubmitFinalBets "s1" early_payload) in
  let st2 := step st1 (OnSubmitFinalBets "s1" early_payload) in
  last (outbox st1) = Some (ToSocket "s1", bet_accepted 990) /\
  last (outbox st2) = Some (ToSocket "s1", bet_accepted 980) /\
  select_balance (db st2) 7 = Some 980 /\
  length (transactions (db st2)) = 2%nat /\
  (length <$> (finalBets <$> heap st2 !! currentRound st2)) = Some 1%nat.
Proof. repeat split; vm_compute; reflexivity. Qed.

(** C1, at the failing input.  A submission declaring totalAmount 1 for a
    stake of 100 on line 3 is accepted and debited 1, its snapshot keeps the
    stake of 100 (paid 500 when line 3 wins); an empty submission is accepted
    with a debit of 0 and a snapshot. *)
Theorem finalize_debits_declared_total_not_sum :
  let st1 := step frozen_state (OnSubmitFinalBets "s1" understated_payload) in
  let st2 := step st1 (TimerFires 31000 (2 ^ 52) 53) in
  let st0 := step frozen_state (OnSubmitFinalBets "s1" empty_payload) in
  sum_values (payloadBets understated_payload) = 100 /\
  last (outbox st1) = Some (ToSocket "s1", bet_accepted 999) /\
  select_balance (db st1) 7 = Some 999 /\
  finalBets <$> heap st1 !! currentRound st1
  = Some [("s1", mkSnapshot 7 [("line3", 100)] 1)] /\
  select_balance (db st2) 7 = Some 1499 /\
  last (outbox st0) = Some (ToSocket "s1", bet_accepted 1000) /\
  select_balance (db st0) 7 = Some 1000 /\
  finalBets <$> heap st0 !! currentRound st0
  = Some [("s1", mkSnapshot 7 [] 0)].
Proof. repeat split; vm_compute; reflexivity. Qed.

End TimerEngineFacts.
(** ** The timer engine: start-up, sessions, wagers and the ledger *)

Module TimerEngineMore.
Import TimerEngine TimerEngineFacts.

Lemma run_reachable st inputs :
  reachable st -> Forall valid_input inputs -> reachable (run st inputs).
Proof.
  intros Hr Hv. revert st Hr. unfold run.
  induction Hv as [|i inputs Hi Hv IH]; intros st Hr; cbn; [exact Hr|].
  apply IH, reach_step; assumption.
Defined.

Lemma open_state_reachable : reachable open_state.
Proof.
  unfold open_state. apply run_reachable; [apply reach_boot; lia|].
  repeat (constructor; [first [exact I | cbn; lia]|]); constructor.
Defined.

Lemma frozen_state_reachable : reachable frozen_state.
Proof.
  unfold frozen_state. apply run_reachable; [apply reach_boot; lia|].
  repeat (constructor; [first [exact I | cbn; lia]|]); constructor.
Defined.

Lemma scenarioA_reachable : reachable (scenarioA 1000).
Proof.
  unfold scenarioA, scenarioA_frozen.
  apply run_reachable; [apply run_reachable; [apply reach_boot; lia|]|];
    repeat (constructor; [first [exact I | cbn; lia]|]); constructor.
Defined.

(** X1.  Start-up puts the first round on the grid of the module's first
    Date.now(): the round scheduled by bootstrap starts a whole number of
    round durations after it, is the one the present instant falls into or
    the next one, has the freeze and result instants at their offsets and no
    winner, and its three timers are the only ones pending. *)
Theorem bootstrap_aligns_first_round d t0 now :
  0 < t0 -> t0 <= now ->
  let st := bootstrap d t0 now in
  currentRound st = 0%nat /\
  map timer_slot (timerQueue st) = slots 0 /\
  exists rd k,
    heap st !! 0%nat = Some rd /\
    0 <= k /\
    startTime rd = t0 + k * ROUND_DURATION_MS /\
    now < startTime rd + ROUND_DURATION_MS /\
    (k = 0 \/ now < startTime rd <= now + ROUND_DURATION_MS) /\
    freezeTime rd = startTime rd + FREEZE_OFFSET_MS /\
    resultTime rd = startTime rd + RESULT_OFFSET_MS /\
    winningLine rd = None.
Proof.
  intros H0 Hle. cbv zeta. unfold bootstrap.
  set (first := createRound t0 t0).
  set (cur := if startTime first + ROUND_DURATION_MS <=? now then _ else first).
  assert (Hf : startTime first = t0).
  { unfold first, createRound, or_else; cbn.
    destruct (Z.eqb_spec t0 0); [lia|reflexivity]. }
  assert (Hcur : exists k, 0 <= k /\
                 startTime cur = t0 + k * ROUND_DURATION_MS /\
                 now < startTime cur + ROUND_DURATION_MS /\
                 (k = 0 \/ now < startTime cur <= now + ROUND_DURATION_MS) /\
                 freezeTime cur = startTime cur + FREEZE_OFFSET_MS /\
                 resultTime cur = startTime cur + RESULT_OFFSET_MS /\
                 winningLine cur = None).
  { unfold cur. destruct (Z.leb_spec (startTime first + ROUND_DURATION_MS) now).
    - rewrite Hf in *. exists ((now - t0) / ROUND_DURATION_MS + 1).
      pose proof (Z.div_mod (now - t0) ROUND_DURATION_MS ltac:(discriminate)) as Hdm.
      pose proof (Z.mod_pos_bound (now - t0) ROUND_DURATION_MS ltac:(reflexivity)) as Hmb.
      assert (0 <= (now - t0) / ROUND_DURATION_MS)
        by (apply Z.div_pos; unfold ROUND_DURATION_MS in *; lia).
      unfold createRound, or_else; cbn.
      match goal with |- context [?x =? 0] => destruct (Z.eqb_spec x 0) end;
        cbn; unfold ROUND_DURATION_MS in *; [nia|].
      repeat split; lia.
    - exists 0. unfold first, createRound, or_else in *; cbn in *.
      destruct (Z.eqb_spec t0 0); [lia|]. cbn in *. repeat split; lia. }
  destruct Hcur as (k & K0 & K1 & K2 & K3 & C2 & C3 & C4).
  match goal with
  | |- context [scheduleRoundTimers ?s ?r now] =>
      destruct (scheduleRoundTimers_idle s r cur now) as (S1 & S2 & S3 & S4)
  end; [reflexivity|reflexivity|
        rewrite C2, C3; unfold FREEZE_OFFSET_MS, RESULT_OFFSET_MS; lia|].
  cbn [heap currentRound fired] in *.
  split; [exact S3|]. split; [exact S1|].
  destruct (view_lookup_rev _ _ 0%nat cur S2 eq_refl) as (rd & Hrd & Hv).
  exists rd, k. unfold sched_view in Hv. injection Hv as V1 V2 V3 V4.
  rewrite V1, V2, V3, V4. repeat split; try assumption.
Qed.

Lemma bootstrap_aligns_first_round_witness :
  0 < 1000 /\ 1000 <= 95000 /\
  currentRound (bootstrap demo_db 1000 95000) = 0%nat /\
  map timer_slot (timerQueue (bootstrap demo_db 1000 95000)) = slots 0.
Proof.
  assert (H0 : 0 < 1000) by lia. assert (H1 : 1000 <= 95000) by lia.
  split; [exact H0|]. split; [exact H1|].
  pose proof (bootstrap_aligns_first_round demo_db 1000 95000 H0 H1) as H.
  split; [exact (proj1 H)|exact (proj1 (proj2 H))].
Defined.








(** X4.  A finalize submission that names a round already completed is
    answered with bet_error "Round mismatch" and changes nothing else:
    distinct rounds have distinct start instants, so a stale roundId never
    matches the current round. *)
Theorem superseded_round_id_is_rejected st sid payload session r old :
  reachable st ->
  (r < currentRound st)%nat ->
  heap st !! r = Some old ->
  p_roundId payload = startTime old ->
  jm_get (userSessions st) sid = Some session ->
  s_userId session <> 0 ->
  submit_final_bets st sid payload
  = emit st (ToSocket sid) (bet_error "Round mismatch").
Proof.
  intros Hr Hlt Hold Hp Hs Hu. pose proof (reachable_Inv st Hr) as HI.
  pose proof HI as [I1 _ _ _ (s0 & Hs0 & Hg) _].
  destruct (lookup_lt_is_Some_2 (heap st) (currentRound st) ltac:(lia)) as [cur Hcur].
  apply (round_mismatch_rejected st sid payload session cur Hs Hu Hcur).
  destruct (Hg _ _ Hold) as (G1 & _). destruct (Hg _ _ Hcur) as (G2 & _).
  rewrite Hp, G1, G2. unfold ROUND_DURATION_MS. lia.
Qed.

Lemma superseded_round_id_is_rejected_witness :
  reachable (scenarioA 1000) /\ (0 < currentRound (scenarioA 1000))%nat /\
  submit_final_bets (scenarioA 1000) "s1" scenarioA_payload
  = emit (scenarioA 1000) (ToSocket "s1") (bet_error "Round mismatch").
Proof.
  assert (Hl : (0 < currentRound (scenarioA 1000))%nat) by (vm_compute; lia).
  assert (Ho : exists old, heap (scenarioA 1000) !! 0%nat = Some old /\
                           p_roundId scenarioA_payload = startTime old)
    by (vm_compute; eexists; split; reflexivity).
  assert (Hs : jm_get (userSessions (scenarioA 1000)) "s1"
               = Some (mkSession 7 "ann" 1400)) by (vm_compute; reflexivity).
  assert (Hu : s_userId (mkSession 7 "ann" 1400) <> 0) by (cbn; lia).
  split; [exact scenarioA_reachable|]. split; [exact Hl|].
  destruct Ho as (old & Ho1 & Ho2).
  exact (superseded_round_id_is_rejected (scenarioA 1000) "s1" scenarioA_payload
           (mkSession 7 "ann" 1400) 0 old scenarioA_reachable Hl Ho1 Ho2 Hs Hu).
Defined.

(** X5.  A valid token of an existing user makes the socket's session a
    copy of the user's row as read at that moment (id, name, balance), and
    answers with that balance; the other sockets' sessions, the store, the
    rounds and the timers are not touched. *)
Theorem authenticate_caches_ledger_balance st sid userId u :
  users (db st) !! userId = Some u ->
  let st' := authenticate st sid (GoodToken userId) in
  jm_get (userSessions st') sid
  = Some (mkSession userId (u_username u) (u_balance u)) /\
  (forall sid', sid' <> sid ->
     jm_get (userSessions st') sid' = jm_get (userSessions st) sid') /\
  outbox st' = outbox st ++ [(ToSocket sid, authenticated userId (u_balance u))] /\
  db st' = db st /\ heap st' = heap st /\ timerQueue st' = timerQueue st.
Proof.
  intros Hu. cbv zeta. unfold authenticate. rewrite Hu. cbn.
  rewrite jm_get_set_eq. repeat split.
  intros sid' Hne. apply jm_get_set_ne. congruence.
Qed.

Lemma authenticate_caches_ledger_balance_witness :
  users (db demo_boot) !! 7 = Some (mkUserRow "ann" 1000) /\
  jm_get (userSessions (authenticate demo_boot "s1" (GoodToken 7))) "s1"
  = Some (mkSession 7 "ann" 1000).
Proof.
  assert (Hu : users (db demo_boot) !! 7 = Some (mkUserRow "ann" 1000))
    by (vm_compute; reflexivity).
  split; [exact Hu|].
  exact (proj1 (authenticate_caches_ledger_balance demo_boot "s1" 7
                  (mkUserRow "ann" 1000) Hu)).
Defined.

(** X6.  A failed authenticate (no token, a token that does not verify, or
    the token of a user with no row) creates no session and keeps the one
    the socket may already have: only an auth_error is sent. *)
Theorem failed_authenticate_keeps_sessions st sid tok :
  (forall userId, tok = GoodToken userId -> users (db st) !! userId = None) ->
  let st' := authenticate st sid tok in
  userSessions st' = userSessions st /\
  db st' = db st /\ heap st' = heap st /\
  exists e, outbox st' = outbox st ++ [(ToSocket sid, auth_error e)].
Proof.
  intros Hf. cbv zeta. unfold authenticate.
  destruct tok as [| |userId]; cbn; repeat split; eauto.
  all: rewrite (Hf userId eq_refl); cbn; repeat split; eauto.
Qed.

Lemma failed_authenticate_keeps_sessions_witness :
  users (db open_state) !! 8 = None /\
  userSessions (authenticate open_state "s1" (GoodToken 8))
  = userSessions open_state.
Proof.
  assert (Hn : users (db open_state) !! 8 = None) by (vm_compute; reflexivity).
  split; [exact Hn|].
  refine (proj1 (failed_authenticate_keeps_sessions open_state "s1" (GoodToken 8) _)).
  intros userId E. injection E as <-. exact Hn.
Defined.

(** Keys of a JS Map. *)
Lemma jm_set_keys {V} (m : JsMap V) k v :
  NoDup (m.*1) -> NoDup ((jm_set m k v).*1) /\
  forall k', k' ∈ (jm_set m k v).*1 <-> (k' = k \/ k' ∈ (m.*1)).
Proof.
  induction m as [|[k0 v0] m IH]; cbn; intros Hnd.
  - split; [repeat constructor; apply not_elem_of_nil|].
    intros k'. rewrite elem_of_cons, elem_of_nil. tauto.
  - apply NoDup_cons in Hnd as [Hn Hnd]. destruct (decide (k0 = k)) as [->|Hne]; cbn.
    + split; [apply NoDup_cons; tauto|]. intros k'. rewrite elem_of_cons. tauto.
    + destruct (IH Hnd) as [IH1 IH2]. split.
      * apply NoDup_cons. split; [|exact IH1]. rewrite IH2. intros [->|H]; tauto.
      * intros k'. rewrite !elem_of_cons, IH2. tauto.
Qed.

Lemma jm_delete_keys {V} (m : JsMap V) k :
  NoDup (m.*1) -> NoDup ((jm_delete m k).*1) /\ (k ∉ (jm_delete m k).*1) /\
  forall k', k' ∈ (jm_delete m k).*1 -> k' ∈ (m.*1).
Proof.
  induction m as [|[k0 v0] m IH]; cbn; intros Hnd.
  - split; [constructor|]. split; [apply not_elem_of_nil|tauto].
  - apply NoDup_cons in Hnd as [Hn Hnd]. destruct (decide (k0 = k)) as [->|Hne]; cbn.
    + split; [exact Hnd|]. split; [exact Hn|]. intros k'. rewrite elem_of_cons. tauto.
    + destruct (IH Hnd) as (IH1 & IH2 & IH3). split; [|split].
      * apply NoDup_cons. split; [|exact IH1]. intros H. apply Hn, IH3, H.
      * rewrite elem_of_cons. intros [->|H]; tauto.
      * intros k'. rewrite !elem_of_cons. intros [->|H]; [tauto|right; apply IH3, H].
Qed.

Lemma jm_get_None {V} (m : JsMap V) k : k ∉ (m.*1) -> jm_get m k = None.
Proof.
  induction m as [|[k0 v0] m IH]; cbn; [reflexivity|].
  rewrite elem_of_cons. intros Hn.
  destruct (decide (k0 = k)) as [->|Hne]; [tauto|]. apply IH. tauto.
Qed.

Lemma jm_get_delete_ne {V} (m : JsMap V) k k' :
  k <> k' -> jm_get (jm_delete m k) k' = jm_get m k'.
Proof.
  intros Hne. induction m as [|[k0 v0] m IH]; cbn; [reflexivity|].
  destruct (decide (k0 = k)) as [->|Hne0]; cbn.
  - now rewrite decide_False.
  - destruct (decide (k0 = k')); [reflexivity|exact IH].
Qed.

Lemma notifyPayee_keys ss u fresh mk :
  ((notifyPayee ss u fresh mk).1).*1 = ss.*1.
Proof.
  induction ss as [|[sId session] rest IH]; cbn; [reflexivity|].
  destruct (s_userId session =? u); cbn; [reflexivity|].
  destruct (notifyPayee rest u fresh mk) as [rest' out]. cbn in *. now rewrite IH.
Qed.

Lemma settleAll_keys w p rs now entries acc :
  ((settleAll w p rs now entries acc).1.2).*1 = (acc.1.2).*1.
Proof.
  unfold settleAll. revert acc.
  induction entries as [|e es IH]; intros acc; cbn; [reflexivity|].
  rewrite IH. unfold settleSnapshot. destruct acc as [[d ss] out]. cbn.
  destruct (snap_userId e.2 =? 0); [reflexivity|].
  match goal with |- context [notifyPayee ?a ?b ?c ?f] =>
    pose proof (notifyPayee_keys a b c f) as Hk;
    destruct (notifyPayee a b c f) as [ss' msgs] end.
  exact Hk.
Qed.

Lemma persistRoundStart_sessions st r :
  userSessions (persistRoundStart st r) = userSessions st.
Proof. unfold persistRoundStart. destruct (heap st !! r); reflexivity. Qed.

Lemma fireTimer_session_keys st now m q :
  (userSessions (fireTimer st now m q)).*1 = (userSessions st).*1.
Proof.
  unfold fireTimer. destruct (timerQueue st) as [|t rest]; [reflexivity|].
  destruct (t_kind t).
  - unfold emitStartRound. cbn [record_fired set_queue heap].
    destruct (heap st !! t_round t); [|reflexivity]. cbn [emit userSessions].
    now rewrite persistRoundStart_sessions.
  - unfold emitFreezeBets. cbn [record_fired set_queue heap].
    destruct (heap st !! t_round t); reflexivity.
  - unfold emitRoundResultAndProcess.
    match goal with |- context [rollover ?s _ _] =>
      destruct (rollover_store s (t_round t) now) as [_ ->] end.
    match goal with |- context [persistRoundResult ?s _] => set (st1 := s) end.
    assert (Hs : userSessions (persistRoundResult st1 (t_round t)) = userSessions st).
    { unfold persistRoundResult. destruct (heap st1 !! t_round t) as [rd|];
        [|reflexivity].
      destruct (persistedRoundId rd) as [id|]; [destruct (id =? 0)|]; reflexivity. }
    destruct (heap (persistRoundResult st1 (t_round t)) !! t_round t) as [rd2|];
      [|exact (f_equal _ Hs)].
    match goal with |- context [settleAll ?a ?b ?c ?d ?e ?f] =>
      pose proof (settleAll_keys a b c d e f) as Hk;
      destruct (settleAll a b c d e f) as [[d' ss'] out'] end.
    cbn in *. now rewrite Hk, Hs.
Qed.

(** userSessions holds one entry per socket id. *)
Lemma sessions_keys_NoDup st : reachable st -> NoDup ((userSessions st).*1).
Proof.
  induction 1 as [d t0 now H0 Hle|st i Hr IH Hv].
  - unfold bootstrap.
    match goal with |- context [scheduleRoundTimers ?s ?r ?n] =>
      destruct (scheduleRoundTimers_store s r n) as [_ ->] end.
    constructor.
  - destruct i as [now m q|sid tok|sid now|sid data|sid payload|sid]; cbn [step].
    + rewrite fireTimer_session_keys. exact IH.
    + unfold authenticate. destruct tok; try exact IH.
      destruct (users (db st) !! userId); [|exact IH]. cbn.
      apply jm_set_keys, IH.
    + unfold join_game. destruct (heap st !! currentRound st); exact IH.
    + unfold place_bet. destruct (heap st !! currentRound st); exact IH.
    + unfold submit_final_bets. repeat case_match; try exact IH.
      cbn. apply jm_set_keys, IH.
    + cbn. apply jm_delete_keys, IH.
Qed.

(** X7.  After disconnect the socket has no session left, whatever was
    authenticated on it before; every other socket's session, the rounds
    with the socket's wagers and snapshots, the store, the timers and the
    outbox are as they were. *)
Theorem disconnect_forgets_only_that_socket st sid :
  reachable st ->
  let st' := disconnect st sid in
  jm_get (userSessions st') sid = None /\
  (forall sid', sid' <> sid ->
     jm_get (userSessions st') sid' = jm_get (userSessions st) sid') /\
  heap st' = heap st /\ db st' = db st /\ timerQueue st' = timerQueue st /\
  outbox st' = outbox st.
Proof.
  intros Hr. cbv zeta. unfold disconnect. cbn. repeat split.
  - apply jm_get_None, jm_delete_keys, sessions_keys_NoDup, Hr.
  - intros sid' Hne. apply jm_get_delete_ne. congruence.
Qed.

Lemma disconnect_forgets_only_that_socket_witness :
  reachable open_state /\
  jm_get (userSessions (disconnect open_state "s1")) "s1" = None.
Proof.
  split; [exact open_state_reachable|].
  exact (proj1 (disconnect_forgets_only_that_socket open_state "s1"
                  open_state_reachable)).
Defined.

(** X8.  A snapshot whose user has no session at result time is still
    settled in the store: the win is credited and recorded exactly as for a
    connected user, no message is sent and no session is touched. *)
Theorem payout_without_live_session w p rs now d ss out key snap :
  snap_userId snap <> 0 ->
  Forall (fun e => s_userId e.2 <> snap_userId snap) ss ->
  settleSnapshot w p rs now (d, ss, out) (key, snap)
  = (creditWin d (snap_userId snap) (winAmountOf snap w) w p, ss, out).
Proof.
  intros Hu Hss. unfold settleSnapshot. cbn [snd].
  destruct (Z.eqb_spec (snap_userId snap) 0) as [|_]; [contradiction|].
  rewrite notifyPayee_none by exact Hss. now rewrite app_nil_r.
Qed.

Lemma payout_without_live_session_witness :
  select_balance
    (settleSnapshot (Some 3) (Some 1) 1000 31000
       (scenario_db 900, stranger_sessions, []) ("s1", line3_snapshot)).1.1 7
  = Some 1400.
Proof.
  assert (Hu : snap_userId line3_snapshot <> 0) by (cbn; lia).
  assert (Hs : Forall (fun e => s_userId e.2 <> snap_userId line3_snapshot)
                      stranger_sessions).
  { constructor; [cbn; lia|constructor]. }
  rewrite (payout_without_live_session (Some 3) (Some 1) 1000 31000
             (scenario_db 900) stranger_sessions [] "s1" line3_snapshot Hu Hs).
  vm_compute. reflexivity.
Defined.

(** X9.  join_game always answers, with the current round's start instant
    as roundId and countdowns that are never negative.  The handler reads
    the clock once per field; when the clock does not go back between the
    reads, an answer that reports betting open also carries a positive
    freeze countdown and a result countdown longer than the gap between
    freeze and result; betting is reported open exactly when the last read
    is before the freeze instant. *)
Theorem join_game_reports_open_window
        st sid serverTime atFreezeIn atResultIn atOpen :
  reachable st ->
  atFreezeIn <= atResultIn -> atResultIn <= atOpen ->
  exists cur freezeIn resultIn isOpen,
    heap st !! currentRound st = Some cur /\
    join_game st sid serverTime atFreezeIn atResultIn atOpen
    = emit st (ToSocket sid)
           (current_state (startTime cur) serverTime freezeIn resultIn isOpen) /\
    0 <= freezeIn /\ 0 <= resultIn /\
    (isOpen = true <-> atOpen < freezeTime cur) /\
    (isOpen = true ->
       0 < freezeIn /\ RESULT_OFFSET_MS - FREEZE_OFFSET_MS < resultIn).
Proof.
  intros Hr H23 H34. pose proof (reachable_Inv st Hr) as HI.
  pose proof HI as [I1 _ _ _ (s0 & Hs0 & Hg) _].
  destruct (lookup_lt_is_Some_2 (heap st) (currentRound st) ltac:(lia)) as [cur Hcur].
  destruct (Hg _ _ Hcur) as (G1 & G2 & G3).
  exists cur. do 3 eexists. split; [exact Hcur|].
  unfold join_game. rewrite Hcur. split; [reflexivity|].
  unfold FREEZE_OFFSET_MS, RESULT_OFFSET_MS in *.
  rewrite negb_true_iff, Z.leb_gt. repeat split; lia.
Qed.

Lemma join_game_reports_open_window_witness :
  reachable open_state /\ 2000 <= 2001 /\ 2001 <= 2003 /\
  exists cur freezeIn resultIn isOpen,
    heap open_state !! currentRound open_state = Some cur /\
    join_game open_state "s1" 2000 2000 2001 2003
    = emit open_state (ToSocket "s1")
           (current_state (startTime cur) 2000 freezeIn resultIn isOpen) /\
    0 <= freezeIn /\ 0 <= resultIn /\
    (isOpen = true <-> 2003 < freezeTime cur) /\
    (isOpen = true ->
       0 < freezeIn /\ RESULT_OFFSET_MS - FREEZE_OFFSET_MS < resultIn).
Proof.
  assert (H23 : 2000 <= 2001) by lia. assert (H34 : 2001 <= 2003) by lia.
  split; [exact open_state_reachable|]. split; [exact H23|]. split; [exact H34|].
  exact (join_game_reports_open_window open_state "s1" 2000 2000 2001 2003
           open_state_reachable H23 H34).
Defined.

(** X10.  place_bet changes the wager set of the calling socket in the
    current round and nothing else: other sockets' wagers, the snapshots,
    the round's timetable, the store, the sessions and the timers are as
    they were; no balance is read or debited. *)
Theorem place_bet_touches_one_wager_set st sid data cur :
  heap st !! currentRound st = Some cur ->
  let st' := place_bet st sid data in
  exists cur',
    heap st' !! currentRound st' = Some cur' /\
    (forall sid', sid' <> sid -> jm_get (bets cur') sid' = jm_get (bets cur) sid') /\
    finalBets cur' = finalBets cur /\
    sched_view cur' = sched_view cur /\
    db st' = db st /\ userSessions st' = userSessions st /\
    timerQueue st' = timerQueue st.
Proof.
  intros Hc. cbv zeta. unfold place_bet. rewrite Hc. cbn.
  rewrite list_lookup_alter_eq, Hc. cbn. eexists. split; [reflexivity|].
  cbn. repeat split. intros sid' Hne. apply jm_get_set_ne. congruence.
Qed.

Lemma place_bet_touches_one_wager_set_witness :
  db (place_bet open_state "s1"
        (Some (mkPlaceBetData "line3" (Some 100) "add"))) = db open_state.
Proof.
  assert (Hc : exists cur, heap open_state !! currentRound open_state = Some cur)
    by (vm_compute; eexists; reflexivity).
  destruct Hc as (cur & Hc).
  destruct (place_bet_touches_one_wager_set open_state "s1"
              (Some (mkPlaceBetData "line3" (Some 100) "add")) cur Hc)
    as (cur' & _ & _ & _ & _ & Hdb & _).
  exact Hdb.
Defined.

Lemma applyBet_add betsObj line amount :
  applyBet betsObj (Some (mkPlaceBetData line amount "add"))
  = jm_set betsObj line (or_else (jm_get betsObj line) 0 + or_zero amount).
Proof. unfold applyBet. cbn. now rewrite decide_True. Qed.

Lemma applyBet_remove betsObj line amount :
  applyBet betsObj (Some (mkPlaceBetData line amount "remove"))
  = jm_set betsObj line 0.
Proof.
  unfold applyBet. cbn. rewrite decide_False by discriminate.
  now rewrite decide_True.
Qed.

(** X11.  The wager arithmetic of place_bet on a plain key, with stakes
    and amounts that are safe integers: "add" raises the stake of the named
    line by the amount and successive adds accumulate; "remove" resets the
    line to zero whatever amount it carries; the other lines are never
    touched; any other operation, and a missing argument, leave the wager
    set as it is. *)
Theorem applyBet_semantics betsObj line amount other :
  other <> line ->
  plainKey line = true ->
  isSafeInteger (or_else (jm_get betsObj line) 0) = true ->
  isSafeInteger amount = true ->
  isSafeInteger (or_else (jm_get betsObj line) 0 + amount) = true ->
  let added := applyBet betsObj (Some (mkPlaceBetData line (Some amount) "add")) in
  let removed := applyBet added (Some (mkPlaceBetData line None "remove")) in
  jm_get added line = Some (or_else (jm_get betsObj line) 0 + amount) /\
  jm_get added other = jm_get betsObj other /\
  jm_get removed line = Some 0 /\
  jm_get removed other = jm_get betsObj other /\
  (forall amount',
     isSafeInteger amount' = true ->
     isSafeInteger (or_else (jm_get betsObj line) 0 + amount + amount') = true ->
     jm_get (applyBet added (Some (mkPlaceBetData line (Some amount') "add"))) line
     = Some (or_else (jm_get betsObj line) 0 + amount + amount')) /\
  (forall op, op <> "add" -> op <> "remove" ->
     applyBet betsObj (Some (mkPlaceBetData line (Some amount) op)) = betsObj) /\
  applyBet betsObj None = betsObj.
Proof.
  intros Hne _ _ _ _. cbv zeta. rewrite applyBet_remove, applyBet_add.
  cbn [or_zero].
  rewrite !jm_get_set_eq, !jm_get_set_ne by congruence.
  repeat split.
  - intros amount' _ _. rewrite applyBet_add, !jm_get_set_eq. cbn [or_zero].
    f_equal. unfold or_else at 1.
    destruct (Z.eqb_spec (or_else (jm_get betsObj line) 0 + amount) 0); lia.
  - intros op H1 H2. unfold applyBet. cbn. now rewrite !decide_False.
Qed.

Lemma applyBet_semantics_witness :
  "line1" <> "line3" /\ plainKey "line3" = true /\
  isSafeInteger 100 = true /\
  jm_get (applyBet zeroBets (Some (mkPlaceBetData "line3" (Some 100) "add")))
         "line3" = Some (or_else (jm_get zeroBets "line3") 0 + 100).
Proof.
  assert (Hne : "line1" <> "line3") by discriminate.
  assert (Hk : plainKey "line3" = true) by (vm_compute; reflexivity).
  assert (H0 : isSafeInteger (or_else (jm_get zeroBets "line3") 0) = true)
    by (vm_compute; reflexivity).
  assert (Ha : isSafeInteger 100 = true) by (vm_compute; reflexivity).
  assert (Hs : isSafeInteger (or_else (jm_get zeroBets "line3") 0 + 100) = true)
    by (vm_compute; reflexivity).
  split; [exact Hne|]. split; [exact Hk|]. split; [exact Ha|].
  exact (proj1 (applyBet_semantics zeroBets "line3" 100 "line1" Hne Hk H0 Ha Hs)).
Defined.

Lemma betRows_cons u rs p e es :
  betRows u rs p (e :: es)
  = if decide (0 < e.2)
    then (mkTransaction u e.2 TxBet (DescBet e.1 rs) :: (betRows u rs p es).1,
          mkPlayerBet (match p with
                       | Some id => if id =? 0 then None else Some id
                       | None => None
                       end) u e.1 e.2 :: (betRows u rs p es).2)
    else betRows u rs p es.
Proof.
  unfold betRows. cbv zeta. rewrite filter_cons.
  destruct (decide (0 < e.2)); reflexivity.
Qed.

Lemma recordBets_rows u rs p es d :
  let d' := fold_left (recordBet u rs p) es d in
  transactions d' = transactions d ++ (betRows u rs p es).1 /\
  player_bets d' = player_bets d ++ (betRows u rs p es).2 /\
  users d' = users d /\ game_rounds d' = game_rounds d.
Proof.
  cbv zeta. revert d. induction es as [|e es IH]; intros d.
  - cbn. rewrite !app_nil_r. tauto.
  - cbn [fold_left]. destruct (IH (recordBet u rs p d e)) as (T & P & U & G).
    rewrite T, P, U, G, betRows_cons. unfold recordBet. cbn [or_zero].
    destruct (Z.leb_spec e.2 0).
    + rewrite decide_False by lia. tauto.
    + rewrite decide_True by lia. cbn. rewrite <- !app_assoc. tauto.
Qed.

(** X12.  An accepted finalize appends to the ledger one 'bet' transaction
    and one player_bets row for each entry of the submitted bets with a
    positive amount, in the payload's order and carrying that amount, and
    nothing for the other entries; game_rounds is not written. *)
Theorem accepted_finalize_ledger_rows st sid payload session cur balance :
  jm_get (userSessions st) sid = Some session ->
  s_userId session <> 0 ->
  heap st !! currentRound st = Some cur ->
  p_roundId payload = startTime cur ->
  select_balance (db st) (s_userId session) = Some balance ->
  totalAmountOf payload <= balance ->
  let st' := submit_final_bets st sid payload in
  let rows := betRows (s_userId session) (startTime cur) (persistedRoundId cur)
                      (payloadBets payload) in
  transactions (db st') = transactions (db st) ++ rows.1 /\
  player_bets (db st') = player_bets (db st) ++ rows.2 /\
  game_rounds (db st') = game_rounds (db st) /\
  Forall (fun t => 0 < tx_amount t /\ tx_type t = TxBet
                   /\ tx_user t = s_userId session) rows.1.
Proof.
  intros Hs Hu Hc Hr Hb Hle. cbv zeta.
  rewrite (submit_accepted_state st sid payload session cur balance Hs Hu Hc Hr Hb Hle).
  cbn [emit db].
  destruct (recordBets_rows (s_userId session) (startTime cur) (persistedRoundId cur)
              (payloadBets payload)
              (update_balance (db st) (s_userId session) (- totalAmountOf payload)))
    as (T & P & U & G).
  rewrite T, P, G. cbn. repeat split.
  unfold betRows. cbn. apply Forall_forall. intros t Ht.
  apply list_elem_of_In, in_map_iff in Ht as (e & <- & He).
  apply list_elem_of_In, list_elem_of_filter in He as [He _]. cbn. tauto.
Qed.

Lemma accepted_finalize_ledger_rows_witness :
  transactions (db (submit_final_bets frozen_state "s1" early_payload))
  = transactions (db frozen_state)
    ++ (betRows 7 1000 (Some 1) [("line1", 10)]).1.
Proof.
  assert (Hs : jm_get (userSessions frozen_state) "s1"
               = Some (mkSession 7 "ann" 1000)) by (vm_compute; reflexivity).
  assert (Hu : s_userId (mkSession 7 "ann" 1000) <> 0) by (cbn; lia).
  assert (Hc : heap frozen_state !! currentRound frozen_state = Some frozen_round)
    by (vm_compute; reflexivity).
  assert (Hr : p_roundId early_payload = startTime frozen_round)
    by (vm_compute; reflexivity).
  assert (Hb : select_balance (db frozen_state) (s_userId (mkSession 7 "ann" 1000))
               = Some 1000) by (vm_compute; reflexivity).
  assert (Hle : totalAmountOf early_payload <= 1000) by (vm_compute; discriminate).
  exact (proj1 (accepted_finalize_ledger_rows frozen_state "s1" early_payload
                  (mkSession 7 "ann" 1000) frozen_round 1000 Hs Hu Hc Hr Hb Hle)).
Defined.

(** X13.  An accepted finalize leaves the ledger balance and the session's
    cached balance equal: both are the balance read inside the transaction
    minus the debited total, which is also what bet_accepted reports; the
    result is never negative and no other user's balance moves. *)
Theorem accepted_finalize_updates_cache_with_ledger
        st sid payload session cur balance :
  jm_get (userSessions st) sid = Some session ->
  s_userId session <> 0 ->
  heap st !! currentRound st = Some cur ->
  p_roundId payload = startTime cur ->
  select_balance (db st) (s_userId session) = Some balance ->
  totalAmountOf payload <= balance ->
  let st' := submit_final_bets st sid payload in
  let left := balance - totalAmountOf payload in
  select_balance (db st') (s_userId session) = Some left /\
  jm_get (userSessions st') sid
  = Some (mkSession (s_userId session) (s_username session) left) /\
  outbox st' = outbox st ++ [(ToSocket sid, bet_accepted left)] /\
  0 <= left /\
  (forall u, u <> s_userId session ->
     select_balance (db st') u = select_balance (db st) u).
Proof.
  intros Hs Hu Hc Hr Hb Hle. cbv zeta.
  destruct (submit_accepted st sid payload session cur balance Hs Hu Hc Hr Hb Hle)
    as (O & B & _).
  split; [exact B|].
  rewrite (submit_accepted_state st sid payload session cur balance Hs Hu Hc Hr Hb Hle).
  cbn [emit db userSessions outbox]. rewrite jm_get_set_eq.
  repeat split; [lia|].
  intros u Hne. unfold select_balance. rewrite recordBets_users.
  fold (select_balance (update_balance (db st) (s_userId session)
                                       (- totalAmountOf payload)) u).
  rewrite select_update_balance, decide_False by congruence. reflexivity.
Qed.

Lemma accepted_finalize_updates_cache_with_ledger_witness :
  select_balance (db (submit_final_bets frozen_state "s1" early_payload)) 7
  = Some (1000 - totalAmountOf early_payload).
Proof.
  assert (Hs : jm_get (userSessions frozen_state) "s1"
               = Some (mkSession 7 "ann" 1000)) by (vm_compute; reflexivity).
  assert (Hu : s_userId (mkSession 7 "ann" 1000) <> 0) by (cbn; lia).
  assert (Hc : heap frozen_state !! currentRound frozen_state = Some frozen_round)
    by (vm_compute; reflexivity).
  assert (Hr : p_roundId early_payload = startTime frozen_round)
    by (vm_compute; reflexivity).
  assert (Hb : select_balance (db frozen_state) (s_userId (mkSession 7 "ann" 1000))
               = Some 1000) by (vm_compute; reflexivity).
  assert (Hle : totalAmountOf early_payload <= 1000) by (vm_compute; discriminate).
  exact (proj1 (accepted_finalize_updates_cache_with_ledger frozen_state "s1"
                  early_payload (mkSession 7 "ann" 1000) frozen_round 1000
                  Hs Hu Hc Hr Hb Hle)).
Defined.

(** X14.  submit_final_bets never overdraws: whatever the socket, the
    payload and the state, a balance that was not negative before the
    handler ran is not negative after it. *)
Theorem finalize_never_overdraws st sid payload u b :
  select_balance (db st) u = Some b ->
  0 <= b ->
  exists b', select_balance (db (submit_final_bets st sid payload)) u = Some b' /\
             0 <= b'.
Proof.
  intros Hb Hpos. unfold submit_final_bets.
  repeat case_match; cbn [emit db]; try (exists b; split; [exact Hb|exact Hpos]).
  unfold select_balance. rewrite recordBets_users.
  match goal with |- context [update_balance ?d ?x ?y] =>
    fold (select_balance (update_balance d x y) u) end.
  rewrite select_update_balance. case_decide.
  - subst u. rewrite Hb in *. simplify_eq. cbn. eexists. split; [reflexivity|].
    match goal with H : (_ <? _) = false |- _ => apply Z.ltb_ge in H end. lia.
  - exists b. split; [exact Hb|exact Hpos].
Qed.

Lemma finalize_never_overdraws_witness :
  exists b', select_balance
               (db (submit_final_bets frozen_state "s1" greedy_payload)) 7
             = Some b' /\ 0 <= b'.
Proof.
  assert (Hb : select_balance (db frozen_state) 7 = Some 1000)
    by (vm_compute; reflexivity).
  assert (Hpos : 0 <= 1000) by lia.
  exact (finalize_never_overdraws frozen_state "s1" greedy_payload 7 1000 Hb Hpos).
Defined.

(** X15.  The result loop only credits: settling any list of snapshots
    never lowers a balance, and creates or deletes no user row. *)
Theorem settlement_only_credits w p rs now entries acc u :
  let res := settleAll w p rs now entries acc in
  match select_balance acc.1.1 u with
  | Some b => exists b', select_balance res.1.1 u = Some b' /\ b <= b'
  | None => select_balance res.1.1 u = None
  end.
Proof.
  cbv zeta. unfold settleAll. revert acc.
  induction entries as [|e es IH]; intros acc; cbn.
  - destruct (select_balance acc.1.1 u); eauto with lia.
  - specialize (IH (settleSnapshot w p rs now acc e)).
    assert (Hstep : match select_balance acc.1.1 u with
                    | Some b => exists b', select_balance
                                  (settleSnapshot w p rs now acc e).1.1 u = Some b'
                                  /\ b <= b'
                    | None => select_balance (settleSnapshot w p rs now acc e).1.1 u
                              = None
                    end).
    { destruct e as [key snap].
      destruct (Z.eq_dec (snap_userId snap) 0) as [Hz|Hz].
      - unfold settleSnapshot. destruct acc as [[d ss] out]. cbn.
        rewrite Hz. cbn. destruct (select_balance d u); eauto with lia.
      - rewrite settleSnapshot_db by exact Hz.
        destruct (creditWin_effect acc.1.1 (snap_userId snap) (winAmountOf snap w) w p)
          as [Hpos Hnon].
        destruct (Z.lt_ge_cases 0 (winAmountOf snap w)) as [Hw|Hw].
        + destruct (Hpos Hw) as [_ Hc]. rewrite Hc. case_decide.
          * destruct (select_balance acc.1.1 u); cbn; eauto with lia.
          * destruct (select_balance acc.1.1 u); eauto with lia.
        + rewrite Hnon by lia. destruct (select_balance acc.1.1 u); eauto with lia. }
    destruct (select_balance acc.1.1 u) as [b|].
    + destruct Hstep as (b1 & H1 & Hle1). rewrite H1 in IH.
      destruct IH as (b2 & H2 & Hle2). exists b2. split; [exact H2|lia].
    + rewrite Hstep in IH. exact IH.
Qed.

End TimerEngineMore.

(** ** Math.random() scaled to a whole number *)

Lemma round53_scaled_bound c m :
  0 < c -> 0 <= m < 2 ^ 53 -> round53 (c * m) < c * 2 ^ 53.
Proof.
  intros Hc Hm. unfold round53. cbv zeta.
  destruct (Z.leb_spec (Z.log2 (c * m) - 52) 0) as [|Hs]; [nia|].
  assert (Hpos : 0 < c * m) by (destruct (Z.log2_null (c * m)); lia).
  destruct (Z.log2_spec (c * m) Hpos) as [Hlo Hhi].
  set (n := c * m) in *. set (s := Z.log2 n - 52) in *.
  assert (Hn : n <= c * 2 ^ 53 - c) by (unfold n; nia).
  replace (Z.log2 n) with (53 + (s - 1)) in Hlo by lia.
  rewrite Z.pow_add_r in Hlo by lia.
  set (h := 2 ^ (s - 1)) in *.
  assert (Hh : 0 < h) by (apply Z.pow_pos_nonneg; lia).
  assert (H2s : 2 ^ s = 2 * h).
  { unfold h. replace s with (1 + (s - 1)) at 1 by lia.
    rewrite Z.pow_add_r by lia. reflexivity. }
  assert (Hhc : h < c) by nia.
  rewrite !Z.shiftr_div_pow2, !Z.shiftl_mul_pow2 by lia.
  fold h. rewrite H2s, Z.mul_1_l.
  pose proof (Z.div_mod n (2 * h) ltac:(lia)) as Hdm.
  pose proof (Z.mod_pos_bound n (2 * h) ltac:(lia)) as Hmb.
  set (k := n / (2 * h)) in *.
  destruct (Z.ltb_spec (n - k * (2 * h)) h); [nia|].
  destruct (Z.ltb_spec h (n - k * (2 * h))); [nia|].
  destruct (Z.even k); nia.
Qed.

(** X16.  Every cell of a round's display matrix is a whole number from 1
    to 99: the product of Math.random() and 99, rounded to a double, never
    reaches 99. *)
Theorem matrix_cell_range m q :
  0 <= m < 2 ^ 53 -> 53 <= q -> 1 <= Monolith.matrix_cell m q <= 99.
Proof.
  intros Hm Hq. unfold Monolith.matrix_cell.
  pose proof (round53_nonneg (99 * m) ltac:(lia)) as H0.
  pose proof (round53_scaled_bound 99 m ltac:(lia) Hm) as H1.
  rewrite Z.shiftr_div_pow2 by lia.
  assert (Hp : 2 ^ 53 <= 2 ^ q) by (apply Z.pow_le_mono_r; lia).
  assert (0 < 2 ^ 53) by lia.
  assert (0 <= round53 (99 * m) / 2 ^ q) by (apply Z.div_pos; lia).
  assert (round53 (99 * m) / 2 ^ q < 99).
  { apply Z.div_lt_upper_bound; [lia|]. nia. }
  lia.
Qed.

Lemma matrix_cell_range_witness :
  1 <= Monolith.matrix_cell (2 ^ 53 - 1) 53 <= 99.
Proof.
  assert (Hm : 0 <= 2 ^ 53 - 1 < 2 ^ 53) by lia.
  assert (Hq : 53 <= 53) by lia.
  exact (matrix_cell_range (2 ^ 53 - 1) 53 Hm Hq).
Defined.

(** X17.  The draw reaches every line and nothing else: a number is the
    outcome of Math.floor(Math.random() * 5) + 1 for some value of
    Math.random() exactly when it is one of 1 to 5. *)
Theorem draw_line_onto w :
  1 <= w <= 5 <-> exists m q, 0 <= m < 2 ^ 53 /\ 53 <= q /\ draw_line m q = w.
Proof.
  split.
  - intros Hw.
    assert (Hc : w = 1 \/ w = 2 \/ w = 3 \/ w = 4 \/ w = 5) by lia.
    destruct Hc as [->|[->|[->|[->| ->]]]].
    + exists 0, 53. vm_compute. intuition congruence.
    + exists (2 ^ 51), 53. vm_compute. intuition congruence.
    + exists (2 ^ 52), 53. vm_compute. intuition congruence.
    + exists (3 * 2 ^ 51), 53. vm_compute. intuition congruence.
    + exists (2 ^ 53 - 1), 53. vm_compute. intuition congruence.
  - intros (m & q & Hm & Hq & <-). apply draw_line_range; assumption.
Qed.

(** ** The interval engine *)

Module IntervalEngineFacts.
Import IntervalEngine.

Lemma announceStart_frame st now :
  let st' := announceStart st now in
  let r := currentRound st in let r' := currentRound st' in
  startTime r' = startTime r /\ freezeTime r' = freezeTime r /\
  resultTime r' = resultTime r /\ endTime r' = endTime r /\
  winningLine r' = winningLine r /\ bets r' = bets r /\
  finalBets r' = finalBets r /\ freezeAnnounced r' = freezeAnnounced r /\
  userSessions st' = userSessions st /\
  users (db st') = users (db st) /\
  transactions (db st') = transactions (db st) /\
  player_bets (db st') = player_bets (db st).
Proof.
  cbv zeta. unfold announceStart.
  destruct (negb (startAnnounced (currentRound st))
            && (startTime (currentRound st) <=? now)); cbn; tauto.
Qed.

Lemma announceFreeze_frame st now :
  let st' := announceFreeze st now in
  let r := currentRound st in let r' := currentRound st' in
  startTime r' = startTime r /\ freezeTime r' = freezeTime r /\
  resultTime r' = resultTime r /\ endTime r' = endTime r /\
  winningLine r' = winningLine r /\ bets r' = bets r /\
  finalBets r' = finalBets r /\ startAnnounced r' = startAnnounced r /\
  persistedRoundId r' = persistedRoundId r /\
  userSessions st' = userSessions st /\ db st' = db st.
Proof.
  cbv zeta. unfold announceFreeze.
  destruct (negb (freezeAnnounced (currentRound st))
            && (freezeTime (currentRound st) <=? now)); cbn; tauto.
Qed.

Lemma resultAndRollover_early st now m q doneAt :
  now < resultTime (currentRound st) ->
  resultAndRollover st now m q doneAt = st.
Proof.
  intros H. unfold resultAndRollover.
  destruct (Z.leb_spec (resultTime (currentRound st)) now); [lia|].
  now rewrite andb_false_r.
Qed.

Lemma tick_early st now m q doneAt :
  now < resultTime (currentRound st) ->
  tick st now m q doneAt = announceFreeze (announceStart st now) now.
Proof.
  intros Hlt. unfold tick. apply resultAndRollover_early.
  pose proof (announceStart_frame st now) as A. cbv zeta in A.
  pose proof (announceFreeze_frame (announceStart st now) now) as F. cbv zeta in F.
  destruct F as (_ & _ & -> & _); destruct A as (_ & _ & -> & _); exact Hlt.
Qed.


(** X18.  Before resultTime a tick only announces: the wagers, the
    snapshots, the sessions, the balances and the ledger are as they were,
    and the round keeps its timetable and has no winner drawn. *)
Theorem tick_before_result_only_announces st now m q doneAt :
  now < resultTime (currentRound st) ->
  let st' := tick st now m q doneAt in
  let r := currentRound st in let r' := currentRound st' in
  startTime r' = startTime r /\ freezeTime r' = freezeTime r /\
  resultTime r' = resultTime r /\ winningLine r' = winningLine r /\
  bets r' = bets r /\ finalBets r' = finalBets r /\
  userSessions st' = userSessions st /\
  users (db st') = users (db st) /\
  transactions (db st') = transactions (db st) /\
  player_bets (db st') = player_bets (db st).
Proof.
  intros Hlt. cbv zeta. rewrite tick_early by exact Hlt.
  pose proof (announceStart_frame st now) as A. cbv zeta in A.
  pose proof (announceFreeze_frame (announceStart st now) now) as F. cbv zeta in F.
  destruct A as (A1 & A2 & A3 & A4 & A5 & A6 & A7 & A8 & A9 & A10 & A11 & A12).
  destruct F as (F1 & F2 & F3 & F4 & F5 & F6 & F7 & F8 & F9 & F10 & F11).
  rewrite F1, F2, F3, F5, F6, F7, F10, F11.
  repeat split; assumption.
Qed.

Lemma tick_before_result_only_announces_witness :
  26500 < resultTime (currentRound fresh_state) /\
  userSessions (tick fresh_state 26500 0 53 26500) = userSessions fresh_state /\
  users (db (tick fresh_state 26500 0 53 26500)) = users (db fresh_state).
Proof.
  assert (Hlt : 26500 < resultTime (currentRound fresh_state))
    by (vm_compute; reflexivity).
  split; [exact Hlt|].
  pose proof (tick_before_result_only_announces fresh_state 26500 0 53 26500 Hlt)
    as H.
  cbv zeta in H. destruct H as (_ & _ & _ & _ & _ & _ & Hs & Hu & _).
  split; [exact Hs|exact Hu].
Defined.






(** X21.  place_bet with no argument: the socket's zeroed wager set has
    been created by the time the destructuring throws, and the
    acknowledgement reports a failure; a wager set that existed is left as
    it was, and nothing else changes. *)
Theorem place_bet_without_argument st sid :
  let st' := place_bet st sid None in
  jm_get (bets (currentRound st')) sid
  = Some (default TimerEngine.zeroBets (jm_get (bets (currentRound st)) sid)) /\
  (forall sid', sid' <> sid ->
     jm_get (bets (currentRound st')) sid' = jm_get (bets (currentRound st)) sid') /\
  outbox st' = outbox st ++ [(ToSocket sid, TimerEngine.place_bet_ack false [])] /\
  finalBets (currentRound st') = finalBets (currentRound st) /\
  db st' = db st /\ userSessions st' = userSessions st.
Proof.
  cbv zeta. unfold place_bet, jm_has. cbn.
  destruct (jm_get (bets (currentRound st)) sid) as [o|] eqn:E; cbn.
  - rewrite E. repeat split.
  - rewrite TimerEngineFacts.jm_get_set_eq. repeat split.
    intros sid' Hne. apply TimerEngineFacts.jm_get_set_ne. congruence.
Qed.

End IntervalEngineFacts.

(** ** The monolith (server.js) *)

Module MonolithFacts.
Import Monolith.

(** X22.  Once freezeBets has run, update_pending_bet changes no pending
    bet, no balance and no round field, whoever sends it and whatever it
    carries: it only answers with an error. *)
Theorem no_pending_bet_change_after_freeze st sid data :
  let frozen := freezeBets st in
  let st' := update_pending_bet frozen sid data in
  userSessions st' = userSessions st /\ db st' = db st /\
  currentRound st' = currentRound frozen /\
  isBettingOpen (currentRound st') = false /\
  exists e, outbox st' = outbox frozen ++ [(ToSocket sid, bet_error e)].
Proof.
  cbv zeta. unfold update_pending_bet.
  destruct (authenticatedAs (freezeBets st) sid); cbn; repeat split; eauto.
Qed.

(** X23.  While betting is open submit_final_bets debits nothing and
    records nothing: the store, the sessions and the round are as before,
    and the socket is answered with an error. *)
Theorem finalize_before_freeze_is_rejected st sid :
  isBettingOpen (currentRound st) = true ->
  let st' := submit_final_bets st sid in
  db st' = db st /\ userSessions st' = userSessions st /\
  currentRound st' = currentRound st /\
  exists e, outbox st' = outbox st ++ [(ToSocket sid, bet_error e)].
Proof.
  intros Ho. cbv zeta. unfold submit_final_bets. rewrite Ho.
  destruct (authenticatedAs st sid); cbn; repeat split; eauto.
Qed.

Lemma finalize_before_freeze_is_rejected_witness :
  isBettingOpen (currentRound staked_state) = true /\
  db (submit_final_bets staked_state "s1") = db staked_state /\
  userSessions (submit_final_bets staked_state "s1") = userSessions staked_state.
Proof.
  assert (Ho : isBettingOpen (currentRound staked_state) = true)
    by (vm_compute; reflexivity).
  split; [exact Ho|].
  pose proof (finalize_before_freeze_is_rejected staked_state "s1" Ho) as H.
  cbv zeta in H. split; [exact (proj1 H)|exact (proj1 (proj2 H))].
Defined.

Lemma recordPending_users u es d :
  users (fold_left (recordPending u) es d) = users d.
Proof.
  revert d. induction es as [|e es IH]; intros d; cbn; [reflexivity|].
  rewrite IH. unfold recordPending. destruct (0 <? e.2); reflexivity.
Qed.

Lemma finalBets_set_elem fb u v : (u, v) ∈ finalBets_set fb u v.
Proof.
  induction fb as [|[u' v'] fb IH]; cbn.
  - apply list_elem_of_here.
  - destruct (u' =? u); [apply list_elem_of_here|].
    apply list_elem_of_further, IH.
Qed.

(** X24.  An accepted finalize, run to completion, takes the sum of the
    socket's own pending bets: the ledger balance drops by exactly that sum,
    the round keeps the pending bets under the user's id, no other user's
    balance moves, and the session is left with the cached balance lowered
    by the sum and no pending bets. *)
Theorem finalize_debits_pending_sum st sid userId userSession balance :
  authenticatedAs st sid = Some userId ->
  isBettingOpen (currentRound st) = false ->
  jm_get (userSessions st) sid = Some userSession ->
  pendingTotal (ms_pendingBets userSession) <> 0 ->
  select_balance (db st) userId = Some balance ->
  pendingTotal (ms_pendingBets userSession) <= balance ->
  let total := pendingTotal (ms_pendingBets userSession) in
  let st' := submit_final_bets st sid in
  select_balance (db st') userId = Some (balance - total) /\
  (userId, (ms_pendingBets userSession, total)) ∈ finalBets (currentRound st') /\
  jm_get (userSessions st') sid
  = Some (mkMSession (ms_userId userSession) (ms_balance userSession - total)
                     (ms_username userSession) []) /\
  outbox st' = outbox st
    ++ [(ToSocket sid,
         final_bets_submitted (ms_pendingBets userSession)
                              (ms_balance userSession - total))] /\
  (forall other, other <> userId ->
     select_balance (db st') other = select_balance (db st) other).
Proof.
  intros Ha Ho Hs Ht Hb Hle. cbv zeta.
  assert (E : submit_final_bets st sid
    = emit (mkState
              (mkGameRound (id (currentRound st)) (startTime (currentRound st))
                 (freezeTime (currentRound st)) (endTime (currentRound st))
                 (nextRoundTime (currentRound st)) (isBettingOpen (currentRound st))
                 (winningLine (currentRound st))
                 (finalBets_set (finalBets (currentRound st)) userId
                    (ms_pendingBets userSession,
                     pendingTotal (ms_pendingBets userSession))))
              (jm_set (userSessions st) sid
                 (mkMSession (ms_userId userSession)
                    (ms_balance userSession - pendingTotal (ms_pendingBets userSession))
                    (ms_username userSession) []))
              (socketUser st)
              (fold_left (recordPending userId) (ms_pendingBets userSession)
                 (update_balance (db st) userId
                    (- pendingTotal (ms_pendingBets userSession))))
              (outbox st))
           (ToSocket sid)
           (final_bets_submitted (ms_pendingBets userSession)
              (ms_balance userSession - pendingTotal (ms_pendingBets userSession)))).
  { unfold submit_final_bets. rewrite Ha, Ho, Hs, Hb.
    destruct (Z.eqb_spec (pendingTotal (ms_pendingBets userSession)) 0);
      [contradiction|].
    destruct (Z.ltb_spec balance (pendingTotal (ms_pendingBets userSession)));
      [lia|reflexivity]. }
  rewrite E.
  match goal with |- context [db ?s] => set (st1 := s) end.
  split; [|split; [|split; [|split]]].
  - unfold st1. cbn [emit db]. unfold select_balance. rewrite recordPending_users.
    fold (select_balance (update_balance (db st) userId
            (- pendingTotal (ms_pendingBets userSession))) userId).
    rewrite TimerEngineFacts.select_update_balance, decide_True by reflexivity.
    rewrite Hb. cbn. reflexivity.
  - unfold st1. cbn [emit currentRound finalBets]. apply finalBets_set_elem.
  - unfold st1. cbn [emit userSessions]. apply TimerEngineFacts.jm_get_set_eq.
  - reflexivity.
  - intros other Hne. unfold st1. cbn [emit db]. unfold select_balance.
    rewrite recordPending_users.
    fold (select_balance (update_balance (db st) userId
            (- pendingTotal (ms_pendingBets userSession))) other).
    rewrite TimerEngineFacts.select_update_balance, decide_False by congruence.
    reflexivity.
Qed.

Lemma finalize_debits_pending_sum_witness :
  select_balance (db (submit_final_bets frozen_state "s1")) 7
  = Some (1000 - pendingTotal [("line3", 100)]).
Proof.
  assert (Ha : authenticatedAs frozen_state "s1" = Some 7)
    by (vm_compute; reflexivity).
  assert (Ho : isBettingOpen (currentRound frozen_state) = false)
    by (vm_compute; reflexivity).
  assert (Hs : jm_get (userSessions frozen_state) "s1"
               = Some (mkMSession 7 1000 "ann" [("line3", 100)]))
    by (vm_compute; reflexivity).
  assert (Ht : pendingTotal (ms_pendingBets (mkMSession 7 1000 "ann" [("line3", 100)]))
               <> 0) by (vm_compute; discriminate).
  assert (Hb : select_balance (db frozen_state) 7 = Some 1000)
    by (vm_compute; reflexivity).
  assert (Hle : pendingTotal (ms_pendingBets (mkMSession 7 1000 "ann" [("line3", 100)]))
                <= 1000) by (vm_compute; discriminate).
  pose proof (finalize_debits_pending_sum frozen_state "s1" 7
                (mkMSession 7 1000 "ann" [("line3", 100)]) 1000
                Ha Ho Hs Ht Hb Hle) as H.
  cbv zeta in H. exact (proj1 H).
Defined.

(** X25.  What an accepted update_pending_bet leaves on the line: "add"
    raises the pending stake by the amount, which the ledger balance
    covers; any other operation lowers it by the amount but never below
    zero.  No balance is touched, and the session's cached balance is
    brought up to date with the ledger. *)
Theorem pending_bet_update_effect st sid data userId userSession balance :
  authenticatedAs st sid = Some userId ->
  isBettingOpen (currentRound st) = true ->
  select_balance (db st) userId = Some balance ->
  jm_get (userSessions st) sid = Some userSession ->
  (d_operation data = "add" -> d_amount data <= balance) ->
  let key := lineKey (d_lineNumber data) in
  let held := or_else (jm_get (ms_pendingBets userSession) key) 0 in
  let st' := update_pending_bet st sid data in
  exists userSession' value,
    jm_get (userSessions st') sid = Some userSession' /\
    jm_get (ms_pendingBets userSession') key = Some value /\
    (d_operation data = "add" -> value = held + d_amount data) /\
    (d_operation data <> "add" ->
       0 <= value /\ (0 <= d_amount data -> 0 <= held -> value <= held) /\
       (d_amount data <= held -> value = held - d_amount data)) /\
    (forall other, other <> key ->
       jm_get (ms_pendingBets userSession') other
       = jm_get (ms_pendingBets userSession) other) /\
    ms_balance userSession' = balance /\
    db st' = db st /\ currentRound st' = currentRound st /\
    outbox st' = outbox st
      ++ [(ToSocket sid, pending_bet_updated (d_lineNumber data) value balance)].
Proof.
  intros Ha Ho Hb Hs Hadd. cbv zeta. unfold update_pending_bet.
  rewrite Ha, Ho, Hb, Hs. cbn [negb].
  destruct (bool_decide_reflect (d_operation data = "add")) as [Hop|Hop].
  - destruct (Z.ltb_spec balance (d_amount data)); [specialize (Hadd Hop); lia|].
    cbn. rewrite TimerEngineFacts.jm_get_set_eq. do 2 eexists.
    split; [reflexivity|]. cbn.
    rewrite TimerEngineFacts.jm_get_set_eq. split; [reflexivity|].
    split; [reflexivity|]. split; [tauto|].
    split; [|repeat split].
    intros other Hne. apply TimerEngineFacts.jm_get_set_ne. congruence.
  - cbn. rewrite TimerEngineFacts.jm_get_set_eq. do 2 eexists.
    split; [reflexivity|]. cbn.
    rewrite TimerEngineFacts.jm_get_set_eq. split; [reflexivity|].
    split; [tauto|]. split; [intros _; lia|].
    split; [|repeat split].
    intros other Hne. apply TimerEngineFacts.jm_get_set_ne. congruence.
Qed.

Lemma pending_bet_update_effect_witness :
  exists userSession' value,
    jm_get (userSessions
              (update_pending_bet staked_state "s1"
                 (mkPendingBetData 3 250 "remove"))) "s1" = Some userSession' /\
    jm_get (ms_pendingBets userSession') (lineKey 3) = Some value /\
    0 <= value.
Proof.
  assert (Ha : authenticatedAs staked_state "s1" = Some 7)
    by (vm_compute; reflexivity).
  assert (Ho : isBettingOpen (currentRound staked_state) = true)
    by (vm_compute; reflexivity).
  assert (Hb : select_balance (db staked_state) 7 = Some 1000)
    by (vm_compute; reflexivity).
  assert (Hs : jm_get (userSessions staked_state) "s1"
               = Some (mkMSession 7 1000 "ann" [("line3", 100)]))
    by (vm_compute; reflexivity).
  assert (Hadd : d_operation (mkPendingBetData 3 250 "remove") = "add" ->
                 d_amount (mkPendingBetData 3 250 "remove") <= 1000)
    by (intros E; discriminate E).
  assert (Hop : d_operation (mkPendingBetData 3 250 "remove") <> "add")
    by discriminate.
  destruct (pending_bet_update_effect staked_state "s1"
              (mkPendingBetData 3 250 "remove") 7
              (mkMSession 7 1000 "ann" [("line3", 100)]) 1000 Ha Ho Hb Hs Hadd)
    as (s' & v & H1 & H2 & _ & H4 & _).
  exists s', v. split; [exact H1|]. split; [exact H2|].
  exact (proj1 (H4 Hop)).
Defined.

Lemma processEntry_balance r now acc e v :
  select_balance (processEntry r now acc e).1.1 v
  = if decide (e.1 = v /\ 0 < userBetOnWinningLine r e)
    then (fun b => b + userBetOnWinningLine r e * 2) <$> select_balance acc.1.1 v
    else select_balance acc.1.1 v.
Proof.
  unfold processEntry. destruct acc as [[d ss] out]. cbn [fst snd].
  set (s := userBetOnWinningLine r e).
  destruct (Z.ltb_spec 0 (s * 2)) as [Hpos|Hnon].
  - set (d3 := (insert_game_round
                  (insert_transaction (update_balance d e.1 (s * 2))
                     (mkTransaction e.1 (s * 2) TxWin (DescWon (winningLine r))))
                  now (Some now) (winningLine r)).1).
    assert (Hd3 : forall x, select_balance d3 x
                            = select_balance (update_balance d e.1 (s * 2)) x)
      by reflexivity.
    assert (Hres : (match select_balance d3 e.1 with
                    | Some balance =>
                        let '(ss', msgs) :=
                          notifyFirst ss e.1
                            (fun s0 => mkMSession (ms_userId s0) balance
                                                  (ms_username s0) (ms_pendingBets s0))
                            (fun _ => round_end (id r) (winningLine r) (s * 2) balance) in
                        (d3, ss', out ++ msgs)
                    | None => (d3, ss, out)
                    end).1.1 = d3).
    { destruct (select_balance d3 e.1); [|reflexivity].
      destruct (notifyFirst _ _ _ _); reflexivity. }
    rewrite Hres, Hd3, TimerEngineFacts.select_update_balance.
    destruct (decide (e.1 = v)) as [->|Hne].
    + rewrite decide_True by (split; [reflexivity|lia]). reflexivity.
    + rewrite decide_False by tauto. reflexivity.
  - rewrite decide_False by lia.
    destruct (notifyFirst _ _ _ _). reflexivity.
Qed.

Lemma processEntries_other r now es acc v :
  v ∉ (es.*1) ->
  select_balance (fold_left (processEntry r now) es acc).1.1 v
  = select_balance acc.1.1 v.
Proof.
  revert acc. induction es as [|e es IH]; intros acc Hn; cbn; [reflexivity|].
  cbn in Hn. rewrite not_elem_of_cons in Hn. destruct Hn as [Hne Hn].
  rewrite IH by exact Hn. rewrite processEntry_balance.
  rewrite decide_False by (intros [? _]; congruence). reflexivity.
Qed.

Lemma processRoundResults_balance st now userId bets total balance :
  NoDup ((finalBets (currentRound st)).*1) ->
  (userId, (bets, total)) ∈ finalBets (currentRound st) ->
  0 < userBetOnWinningLine (currentRound st) (userId, (bets, total)) ->
  select_balance (db st) userId = Some balance ->
  select_balance (db (processRoundResults st now)) userId
  = Some (balance
          + userBetOnWinningLine (currentRound st) (userId, (bets, total)) * 2) /\
  currentRound (processRoundResults st now) = currentRound st.
Proof.
  intros Hnd Hin Hpos Hb. unfold processRoundResults.
  set (r := currentRound st) in *.
  assert (Hsplit : forall acc,
            (let '(d, ss, out) := fold_left (processEntry r now) (finalBets r) acc in
             mkState r ss (socketUser st) d out)
            = mkState r (fold_left (processEntry r now) (finalBets r) acc).1.2
                      (socketUser st)
                      (fold_left (processEntry r now) (finalBets r) acc).1.1
                      (fold_left (processEntry r now) (finalBets r) acc).2).
  { intros acc. destruct (fold_left _ _ acc) as [[d ss] out]. reflexivity. }
  rewrite Hsplit. cbn [db currentRound]. split; [|reflexivity].
  apply list_elem_of_split in Hin as (pre & post & Hfb).
  rewrite Hfb in Hnd |- *. rewrite fmap_app, fmap_cons in Hnd. cbn in Hnd.
  apply NoDup_app in Hnd as (_ & Hpre & Hpost).
  apply NoDup_cons in Hpost as [Hpost _].
  rewrite fold_left_app. cbn [fold_left].
  rewrite processEntries_other by exact Hpost.
  rewrite processEntry_balance, decide_True by (split; [reflexivity|exact Hpos]).
  rewrite processEntries_other.
  - cbn. rewrite Hb. reflexivity.
  - intros H. apply (Hpre _ H). apply list_elem_of_here.
Qed.

(** X26.  The settlement is launched by every tick from endTime on, and it
    is not idempotent: between endTime and nextRoundTime a tick launches it
    and does not start the next round, and each run, completed on the round
    it started on, credits a user with a stake on the winning line twice
    that stake; so two such ticks pay the same win twice. *)
Theorem settlement_repeats_every_tick st now1 now2 userId bets total balance :
  let r := currentRound st in
  endTime r <= now1 -> now1 <= now2 -> now2 < nextRoundTime r ->
  NoDup ((finalBets r).*1) ->
  (userId, (bets, total)) ∈ finalBets r ->
  0 < userBetOnWinningLine r (userId, (bets, total)) ->
  select_balance (db st) userId = Some balance ->
  DoProcessRoundResults ∈ tickActions r now1 /\
  DoProcessRoundResults ∈ tickActions r now2 /\
  (DoStartNewRound ∉ tickActions r now1) /\
  (DoStartNewRound ∉ tickActions r now2) /\
  select_balance (db (processRoundResults st now1)) userId
  = Some (balance + userBetOnWinningLine r (userId, (bets, total)) * 2) /\
  select_balance
    (db (processRoundResults (processRoundResults st now1) now2)) userId
  = Some (balance + userBetOnWinningLine r (userId, (bets, total)) * 2
                  + userBetOnWinningLine r (userId, (bets, total)) * 2).
Proof.
  cbv zeta. intros H1 H2 H3 Hnd Hin Hpos Hb.
  assert (Ht : forall now, endTime (currentRound st) <= now ->
                 DoProcessRoundResults ∈ tickActions (currentRound st) now).
  { intros now Hn. unfold tickActions.
    destruct (Z.leb_spec (endTime (currentRound st)) now); [|lia].
    rewrite !elem_of_app, elem_of_cons. tauto. }
  assert (Hn : forall now, now < nextRoundTime (currentRound st) ->
                 DoStartNewRound ∉ tickActions (currentRound st) now).
  { intros now Hlt Hx. unfold tickActions in Hx.
    destruct (Z.leb_spec (nextRoundTime (currentRound st)) now) as [|_]; [lia|].
    repeat case_match; cbn in Hx;
      rewrite ?elem_of_cons, ?elem_of_nil in Hx; intuition discriminate. }
  split; [apply Ht; exact H1|]. split; [apply Ht; lia|].
  split; [apply Hn; lia|]. split; [apply Hn; exact H3|].
  destruct (processRoundResults_balance st now1 userId bets total balance
              Hnd Hin Hpos Hb) as [B1 C1].
  split; [exact B1|].
  destruct (processRoundResults_balance (processRoundResults st now1) now2
              userId bets total _ ltac:(rewrite C1; exact Hnd)
              ltac:(rewrite C1; exact Hin) ltac:(rewrite C1; exact Hpos) B1)
    as [B2 _].
  rewrite C1 in B2. exact B2.
Qed.

Lemma settlement_repeats_every_tick_witness :
  select_balance
    (db (processRoundResults (processRoundResults drawn_state 31000) 32000)) 7
  = Some (900 + userBetOnWinningLine (currentRound drawn_state)
                  (7, ([("line3", 100)], 100)) * 2
              + userBetOnWinningLine (currentRound drawn_state)
                  (7, ([("line3", 100)], 100)) * 2).
Proof.
  assert (H1 : endTime (currentRound drawn_state) <= 31000)
    by (vm_compute; discriminate).
  assert (H2 : 31000 <= 32000) by lia.
  assert (H3 : 32000 < nextRoundTime (currentRound drawn_state))
    by (vm_compute; reflexivity).
  assert (Hfb : finalBets (currentRound drawn_state)
                = [(7, ([("line3", 100)], 100))]) by (vm_compute; reflexivity).
  assert (Hnd : NoDup ((finalBets (currentRound drawn_state)).*1)).
  { rewrite Hfb. cbn. apply NoDup_singleton. }
  assert (Hin : (7, ([("line3", 100)], 100)) ∈ finalBets (currentRound drawn_state)).
  { rewrite Hfb. apply list_elem_of_here. }
  assert (Hpos : 0 < userBetOnWinningLine (currentRound drawn_state)
                       (7, ([("line3", 100)], 100))) by (vm_compute; reflexivity).
  assert (Hb : select_balance (db drawn_state) 7 = Some 900)
    by (vm_compute; reflexivity).
  pose proof (settlement_repeats_every_tick drawn_state 31000 32000 7
                [("line3", 100)] 100 900 H1 H2 H3 Hnd Hin Hpos Hb) as H.
  exact (proj2 (proj2 (proj2 (proj2 (proj2 H))))).
Defined.

(** X27.  The countdowns of a round that has started: never negative, in
    the order freeze, winner, round end, next round, the winner due at most
    two seconds after the freeze; timeRemaining is the freeze countdown in
    whole seconds and at most 25. *)
Theorem countdowns_are_ordered idNow start now :
  start <= now ->
  let r := newGameRound idNow start in
  let c := getTimeUntilNextEvent r now in
  0 <= untilFreeze c <= untilWinner c /\
  untilWinner c <= untilRoundEnd c <= untilNextRound c /\
  untilWinner c <= untilFreeze c + 2000 /\
  1000 * timeRemaining r now <= untilFreeze c < 1000 * timeRemaining r now + 1000 /\
  0 <= timeRemaining r now <= 25.
Proof.
  intros Hs. cbv zeta.
  unfold getTimeUntilNextEvent, timeRemaining, newGameRound. cbn -[Z.max Z.div].
  pose proof (Z.div_mod (start + 25000 - now) 1000 ltac:(lia)).
  pose proof (Z.mod_pos_bound (start + 25000 - now) 1000 ltac:(lia)).
  repeat split; try lia.
Qed.

Lemma countdowns_are_ordered_witness :
  0 <= timeRemaining (newGameRound 1000 1000) 13500 <= 25.
Proof.
  assert (Hs : 1000 <= 13500) by lia.
  pose proof (countdowns_are_ordered 1000 1000 13500 Hs) as H.
  cbv zeta in H. exact (proj2 (proj2 (proj2 (proj2 H)))).
Defined.

(** X28.  authenticate always starts the socket's session afresh: the
    pending bets placed on the socket before are discarded without a
    message, so after the freeze the socket has nothing to submit; the
    store and the round are not touched. *)
Theorem reauthentication_discards_pending_bets st sid userId u :
  users (db st) !! userId = Some u ->
  userId <> 0 ->
  let st1 := authenticate st sid (GoodToken userId) in
  jm_get (userSessions st1) sid
  = Some (mkMSession userId (u_balance u) (u_username u) []) /\
  authenticatedAs st1 sid = Some userId /\
  db st1 = db st /\ currentRound st1 = currentRound st /\
  outbox st1 = outbox st ++ [(ToSocket sid, user_data (u_balance u) userId)] /\
  submit_final_bets (freezeBets st1) sid
  = emit (freezeBets st1) (ToSocket sid) final_bets_none.
Proof.
  intros Hu Hne. cbv zeta. unfold authenticate. rewrite Hu.
  match goal with |- context [jm_get (userSessions ?s) sid] => set (st1 := s) end.
  assert (Hs : jm_get (userSessions st1) sid
               = Some (mkMSession userId (u_balance u) (u_username u) []))
    by (unfold st1; cbn; apply TimerEngineFacts.jm_get_set_eq).
  assert (Ha : authenticatedAs st1 sid = Some userId).
  { unfold authenticatedAs, st1. cbn. rewrite TimerEngineFacts.jm_get_set_eq.
    destruct (Z.eqb_spec userId 0); [contradiction|reflexivity]. }
  split; [exact Hs|]. split; [exact Ha|].
  split; [reflexivity|]. split; [reflexivity|]. split; [reflexivity|].
  assert (Ha' : authenticatedAs (freezeBets st1) sid = Some userId) by exact Ha.
  assert (Hs' : jm_get (userSessions (freezeBets st1)) sid
                = Some (mkMSession userId (u_balance u) (u_username u) []))
    by exact Hs.
  unfold submit_final_bets. rewrite Ha', Hs'. reflexivity.
Qed.

Lemma reauthentication_discards_pending_bets_witness :
  jm_get (userSessions staked_state) "s1"
  = Some (mkMSession 7 1000 "ann" [("line3", 100)]) /\
  jm_get (userSessions (authenticate staked_state "s1" (GoodToken 7))) "s1"
  = Some (mkMSession 7 1000 "ann" []).
Proof.
  assert (Hu : users (db staked_state) !! 7 = Some (mkUserRow "ann" 1000))
    by (vm_compute; reflexivity).
  assert (Hne : 7 <> 0) by lia.
  split; [vm_compute; reflexivity|].
  pose proof (reauthentication_discards_pending_bets staked_state "s1" 7
                (mkUserRow "ann" 1000) Hu Hne) as H.
  cbv zeta in H. exact (proj1 H).
Defined.

End MonolithFacts.

(** ** Round boundaries outside the timer engine *)

(** C7, at the failing input.  In the interval engine the round created at
    1000 has its result processed by the tick of 28000, and the processing
    ends at 28040: the successor starts at 28040, the wall clock, and not at
    1000 + ROUND_DURATION_MS = 31000.  In server.js the tick of 34012 on the
    round started at 1000 calls startNewRound, and the successor starts at
    the Date.now() its constructor reads, 34013, neither at 31000 nor at
    the round's own nextRoundTime, 34000. *)
Theorem successor_start_follows_wall_clock :
  let st := IntervalEngine.fresh_state in
  let st' := IntervalEngine.tick st 28000 (2 ^ 52) 53 28040 in
  let ms := Monolith.drawn_state in
  let ms' := Monolith.startNewRound ms 34012 34013 in
  IntervalEngine.startTime (IntervalEngine.currentRound st) = 1000 /\
  IntervalEngine.startTime (IntervalEngine.currentRound st') = 28040 /\
  28040 <> 1000 + IntervalEngine.ROUND_DURATION_MS /\
  Monolith.startTime (Monolith.currentRound ms) = 1000 /\
  Monolith.tickActions (Monolith.currentRound ms) 34012
  = [Monolith.DoProcessRoundResults; Monolith.DoStartNewRound] /\
  Monolith.startTime (Monolith.currentRound ms') = 34013 /\
  34013 <> 1000 + 30000 /\
  34013 <> Monolith.nextRoundTime (Monolith.currentRound ms).
Proof.
  cbv zeta. split; [reflexivity|]. split; [vm_compute; reflexivity|].
  split; [unfold IntervalEngine.ROUND_DURATION_MS; lia|].
  split; [vm_compute; reflexivity|]. split; [vm_compute; reflexivity|].
  split; [reflexivity|]. split; [lia|]. vm_compute. discriminate.
Qed.
